(** * ChronicPain.ipynb: the permutation test of the notebook

    A shallow embedding of the three code cells that make up the test,

      - [difference_of_means_abs]  (the test statistic),
      - [one_simulated_difference] (one relabelling of the rows),
      - the [repetitions] loop and [empirical_P],

    together with the fragment of pandas they call.

    Conventions of the model.
      - A float64 value is an exact rational ([Q]): sums, quotients and
        differences are computed without rounding, and there is no NaN.
        Numbers are compared with [Qeq] ([==]).  pandas adds the float64
        values of a group in row order; on 0/1 outcomes, the data of the
        trial, those sums are counts and exact in float64 as well, and
        statements that compare sums taken in different orders are made
        for 0/1 outcomes only.
      - A data frame is the ordered list of its named columns over a
        [RangeIndex] 0 .. N-1, which is what [pd.read_csv] builds.
      - pandas is the version the notebook ran on (Python 3.7): the mean of
        a group-by silently leaves out the columns that are not numeric.
      - [df.sample] draws a permutation of the row positions; the draw is an
        explicit argument of the model.
      - Data frames are objects: the functions receive references into a
        heap, and an exception leaves the heap as it was when it was
        raised. *)

From Stdlib Require Import String Ascii List Bool Arith ZArith QArith Qabs.
From Stdlib Require Import Lia Lqa Permutation Sorted OrderedTypeEx PrimFloat.
Import ListNotations.

Close Scope Q_scope.
Open Scope string_scope.
Open Scope list_scope.

(** ** Exceptions and results *)

Inductive exn : Type :=
| KeyError (key : string)
| IndexError
| ValueError
| ZeroDivisionError
| NameError.

Inductive result (A : Type) : Type :=
| Ok (a : A)
| Raise (e : exn).

Arguments Ok {A} a.
Arguments Raise {A} e.

(** ** Data frames *)

Inductive column : Type :=
| Numeric (values : list Q)
| Object (values : list string).

Definition DataFrame : Type := list (string * column).

Definition has_column (df : DataFrame) (name : string) : bool :=
  existsb (fun nc => String.eqb (fst nc) name) df.

(** [df[name]] *)
Fixpoint getitem (df : DataFrame) (name : string) : result column :=
  match df with
  | [] => Raise (KeyError name)
  | (n, c) :: df' => if String.eqb n name then Ok c else getitem df' name
  end.

(** [df[name] = col]: an existing column is overwritten where it stands, a
    new one is appended. *)
Fixpoint setitem (df : DataFrame) (name : string) (col : column) : DataFrame :=
  match df with
  | [] => [(name, col)]
  | (n, c) :: df' =>
      if String.eqb n name then (n, col) :: df'
      else (n, c) :: setitem df' name col
  end.

Definition remove_column (df : DataFrame) (name : string) : DataFrame :=
  filter (fun nc => negb (String.eqb (fst nc) name)) df.

(** [df.drop(name, axis=1)]: a new frame. *)
Definition drop (df : DataFrame) (name : string) : result DataFrame :=
  if has_column df name then Ok (remove_column df name)
  else Raise (KeyError name).

(** The rows at the positions [idx], in that order. *)
Definition take {A : Type} (idx : list nat) (l : list A) : list A :=
  flat_map (fun i => match nth_error l i with Some x => [x] | None => [] end)
           idx.

Definition take_column (idx : list nat) (c : column) : column :=
  match c with
  | Numeric v => Numeric (take idx v)
  | Object v => Object (take idx v)
  end.

(** [df.sample(n=df.shape[0], replace=False)] for the drawn permutation
    [perm]: the rows in the drawn order, each still carrying its old index
    label. *)
Definition sample (perm : list nat) (df : DataFrame) : list nat * DataFrame :=
  (perm, map (fun nc => (fst nc, take_column perm (snd nc))) df).

(** [.reset_index()]: the old index becomes the first column, named
    [index] (or [level_0] when [index] is taken), and the frame gets a
    fresh [RangeIndex]. *)
Definition reset_index (s : list nat * DataFrame) : result DataFrame :=
  let (idx, df) := s in
  let name := if has_column df "index" then "level_0" else "index" in
  if has_column df name then Raise ValueError
  else Ok ((name, Numeric (map (fun i => inject_Z (Z.of_nat i)) idx)) :: df).

(** ** Group-by and mean *)

Definition Qsum (l : list Q) : Q := fold_right Qplus 0%Q l.

Definition mean (l : list Q) : Q :=
  (Qsum l / inject_Z (Z.of_nat (length l)))%Q.

Section Groupby.

Context {K : Type} (cmp : K -> K -> comparison).

Fixpoint insert_key (k : K) (ks : list K) : list K :=
  match ks with
  | [] => [k]
  | k' :: ks' =>
      match cmp k k' with
      | Lt => k :: ks
      | Eq => ks
      | Gt => k' :: insert_key k ks'
      end
  end.

(** The distinct keys in increasing order ([sort=True]). *)
Definition group_keys (keys : list K) : list K :=
  fold_right insert_key [] keys.

(** The values of the rows whose key is [k]. *)
Fixpoint group_values (k : K) (keys : list K) (vals : list Q) : list Q :=
  match keys, vals with
  | k' :: keys', v :: vals' =>
      match cmp k' k with
      | Eq => v :: group_values k keys' vals'
      | _ => group_values k keys' vals'
      end
  | _, _ => []
  end.

Definition group_means (keys : list K) (vals : list Q) : list Q :=
  map (fun k => mean (group_values k keys vals)) (group_keys keys).

End Groupby.

(** The frame [df.groupby(by).mean()]: one row per group, one column per
    numeric column of [df] other than [by]. *)
Record Grouped : Type := mkGrouped {
  n_groups : nat;
  mean_columns : list (string * list Q)
}.

Definition numeric_columns (df : DataFrame) : list (string * list Q) :=
  flat_map (fun nc => match snd nc with
                      | Numeric v => [(fst nc, v)]
                      | Object _ => []
                      end) df.

Definition groupby_mean (df : DataFrame) (by_ : string) : result Grouped :=
  match getitem df by_ with
  | Raise e => Raise e
  | Ok key =>
      let rest := numeric_columns (remove_column df by_) in
      match key with
      | Object ks =>
          Ok (mkGrouped (length (group_keys String.compare ks))
                (map (fun nv =>
                        (fst nv, group_means String.compare ks (snd nv)))
                     rest))
      | Numeric ks =>
          Ok (mkGrouped (length (group_keys Qcompare ks))
                (map (fun nv => (fst nv, group_means Qcompare ks (snd nv)))
                     rest))
      end
  end.

(** [g.iloc(0)[i]]: row [i] of the grouped frame. *)
Definition iloc (g : Grouped) (i : nat) : result (list (string * Q)) :=
  if (i <? n_groups g)%nat
  then Ok (map (fun nm => (fst nm, nth i (snd nm) 0%Q)) (mean_columns g))
  else Raise IndexError.

(** [row[0]]: the first entry of a row. *)
Definition item0 (row : list (string * Q)) : result Q :=
  match row with
  | [] => Raise IndexError
  | (_, v) :: _ => Ok v
  end.

(** ** The heap of data frames *)

Definition ref : Type := nat.
Definition heap : Type := list DataFrame.

Definition M (A : Type) : Type := heap -> result A * heap.

Definition ret {A : Type} (a : A) : M A := fun h => (Ok a, h).

Definition bind {A B : Type} (m : M A) (f : A -> M B) : M B :=
  fun h =>
    match m h with
    | (Ok a, h') => f a h'
    | (Raise e, h') => (Raise e, h')
    end.

Notation "x <- m ;; k" := (bind m (fun x => k))
  (at level 61, m at next level, right associativity).

Definition lift {A : Type} (r : result A) : M A := fun h => (r, h).

Definition load (r : ref) : M DataFrame :=
  fun h => match nth_error h r with
           | Some d => (Ok d, h)
           | None => (Raise NameError, h)
           end.

Fixpoint update (h : heap) (r : ref) (d : DataFrame) : heap :=
  match h, r with
  | [], _ => []
  | _ :: h', O => d :: h'
  | d' :: h', S r' => d' :: update h' r' d
  end.

Definition store (r : ref) (d : DataFrame) : M unit :=
  fun h => (Ok tt, update h r d).

Definition alloc (d : DataFrame) : M ref :=
  fun h => (Ok (length h), h ++ [d]).

(** ** The notebook's functions *)

(** [def difference_of_means_abs(df, group_label)] *)
Definition difference_of_means_abs (df : ref) (group_label : string) : M Q :=
  one_value <- (d <- load df ;;
                g <- lift (groupby_mean d group_label) ;;
                row <- lift (iloc g 0) ;;
                lift (item0 row)) ;;
  another_value <- (d <- load df ;;
                    g <- lift (groupby_mean d group_label) ;;
                    row <- lift (iloc g 1) ;;
                    lift (item0 row)) ;;
  let observed_diff := Qabs (one_value - another_value) in
  ret observed_diff.

(** [def one_simulated_difference(df, group_label)], for the permutation
    [perm] that [df.sample] draws.  The assignment to
    [df['Shuffled Label']] writes into the caller's object; [df.drop]
    builds a new object, to which the local name [df] is rebound. *)
Definition one_simulated_difference (perm : list nat) (df : ref)
    (group_label : string) : M Q :=
  temp_df <- (d <- load df ;; lift (reset_index (sample perm d))) ;;
  shuffled <- lift (getitem temp_df group_label) ;;
  _ <- (d <- load df ;; store df (setitem d "Shuffled Label" shuffled)) ;;
  df' <- (d <- load df ;; d' <- lift (drop d group_label) ;; alloc d') ;;
  difference_of_means_abs df' "Shuffled Label".

(** The simulation cell:
    [for i in np.arange(repetitions): differences.append(...)], started at
    iteration [i] with [n] iterations to go; [draws i] is the permutation
    drawn in iteration [i]. *)
Fixpoint repetitions_loop (draws : nat -> list nat) (bta_df : ref)
    (n i : nat) (differences : list Q) : M (list Q) :=
  match n with
  | O => ret differences
  | S n' =>
      new_difference <- one_simulated_difference (draws i) bta_df "Group" ;;
      repetitions_loop draws bta_df n' (S i) (differences ++ [new_difference])
  end.

Definition simulate (draws : nat -> list nat) (bta_df : ref)
    (repetitions : nat) : M (list Q) :=
  repetitions_loop draws bta_df repetitions 0 [].

Definition count_nonzero (l : list bool) : nat :=
  length (filter (fun b => b) l).

(** [np.count_nonzero(differences <= observed_difference) / repetitions] *)
Definition empirical_P (differences : list Q) (observed_difference : Q)
    (repetitions : nat) : result Q :=
  let hits :=
    count_nonzero (map (fun d => Qle_bool d observed_difference) differences) in
  match repetitions with
  | O => Raise ZeroDivisionError
  | S _ => Ok (inject_Z (Z.of_nat hits) / inject_Z (Z.of_nat repetitions))%Q
  end.

(** ** Datasets *)

(** The table of the trial: a [Group] column of labels and a [Result]
    column of outcomes. *)
Definition dataset (labels : list string) (results : list Q) : DataFrame :=
  [("Group", Object labels); ("Result", Numeric results)].

(** The 31 patients of [bta.csv]: 16 in control with 2 reliefs, 15 in
    treatment with 9 reliefs.  The file is not among the sources; the rows
    are those the notebook's outputs show (the head of the table, the
    group sizes and the group means), with the control rows first. *)
Definition bta_labels : list string :=
  repeat "Control" 16 ++ repeat "Treatment" 15.

Definition bta_results : list Q :=
  (repeat 1%Q 2 ++ repeat 0%Q 14) ++ (repeat 1%Q 9 ++ repeat 0%Q 6).

Definition bta_df : DataFrame := dataset bta_labels bta_results.

(** The table as a relabelling has left it: in the notebook the observed
    statistic was last computed after the simulation had run. *)
Definition bta_df_shuffled : DataFrame :=
  bta_df ++ [("Shuffled Label", Object (rev bta_labels))].

(** The data frame the caller holds once the simulation has run on it: the
    table, with or without a [Shuffled Label] column left by an earlier
    iteration. *)
Definition holds_dataset (d : DataFrame) (labels : list string)
    (results : list Q) : Prop :=
  d = dataset labels results \/
  exists old, d = dataset labels results ++ [("Shuffled Label", Object old)].

(** The outcomes of the rows labelled [g], in row order. *)
Definition outcomes (g : string) (labels : list string) (results : list Q)
    : list Q :=
  map snd (filter (fun row => String.eqb (fst row) g) (combine labels results)).

(** The number of reliefs (outcome 1) among [l]. *)
Definition successes (l : list Q) : nat :=
  length (filter (fun x => Qeq_bool x 1%Q) l).

(** Exchanging the two group labels [a] and [b] on a row. *)
Definition swap_label (a b l : string) : string :=
  if String.eqb l a then b else if String.eqb l b then a else l.

(** The p-value as the notebook's text and the specification word it, for
    comparison with [empirical_P]: the proportion of the simulated values
    that are at least the observed one. *)
Definition proportion_at_least (differences : list Q) (observed : Q) : Q :=
  (inject_Z (Z.of_nat (length (filter (fun d => Qle_bool observed d)
                                      differences)))
   / inject_Z (Z.of_nat (length differences)))%Q.

(** The value of [d.groupby(by).mean().iloc(0)[i][0]]. *)
Definition group_mean_at (d : DataFrame) (by_ : string) (i : nat) : result Q :=
  match groupby_mean d by_ with
  | Raise e => Raise e
  | Ok g => match iloc g i with
            | Raise e => Raise e
            | Ok row => item0 row
            end
  end.

(** The number of rows of each group, in the order of the sorted keys. *)
Definition group_sizes {K : Type} (cmp : K -> K -> comparison)
    (keys : list K) : list nat :=
  map (fun k =>
         length (filter (fun k' => match cmp k' k with
                                   | Eq => true
                                   | _ => false
                                   end) keys))
      (group_keys cmp keys).

(** The cell [bta_df.groupby('Group').count()]: one row per group and, for
    every column other than [by], the number of its entries in the group
    (no entry is missing in this model). *)
Definition groupby_count (df : DataFrame) (by_ : string)
    : result (list (string * list nat)) :=
  match getitem df by_ with
  | Raise e => Raise e
  | Ok key =>
      let sizes := match key with
                   | Object ks => group_sizes String.compare ks
                   | Numeric ks => group_sizes Qcompare ks
                   end in
      Ok (map (fun nc => (fst nc, sizes)) (remove_column df by_))
  end.

(** The value of the statistic on a table with the label column [labels]
    and the outcome column [results], in closed form: the first two of the
    sorted distinct labels are compared. *)
Definition statistic_of (labels : list string) (results : list Q) : result Q :=
  match group_keys String.compare labels with
  | k0 :: k1 :: _ =>
      Ok (Qabs (mean (outcomes k0 labels results)
                - mean (outcomes k1 labels results)))
  | _ => Raise IndexError
  end.

(** A value between 0 and 1. *)
Definition in_unit_interval (v : Q) : Prop := (0 <= v)%Q /\ (v <= 1)%Q.

(** The order of the group keys: strings by code point. *)
Definition slt : string -> string -> Prop := String_as_OT.lt.

(** ** Facts on the sorted group keys *)

Lemma compare_Eq (x y : string) : String.compare x y = Eq <-> x = y.
Proof. apply String_as_OT.cmp_eq. Qed.

Lemma compare_Lt (x y : string) : String.compare x y = Lt <-> slt x y.
Proof. apply String_as_OT.cmp_lt. Qed.

Lemma compare_Gt (x y : string) : String.compare x y = Gt <-> slt y x.
Proof.
  rewrite <- compare_Lt.
  change (String.compare x y) with (String_as_OT.cmp x y).
  rewrite String_as_OT.cmp_antisym. unfold String_as_OT.cmp.
  destruct (String.compare y x); simpl; split; congruence.
Qed.

Lemma slt_irrefl (x : string) : ~ slt x x.
Proof. intro H. exact (String_as_OT.lt_not_eq _ _ H eq_refl). Qed.

Lemma slt_trans (x y z : string) : slt x y -> slt y z -> slt x z.
Proof. apply String_as_OT.lt_trans. Qed.

Lemma slt_asym (x y : string) : slt x y -> ~ slt y x.
Proof. intros H1 H2. exact (slt_irrefl x (slt_trans _ _ _ H1 H2)). Qed.

Lemma slt_total (x y : string) : x <> y -> slt x y \/ slt y x.
Proof.
  intro Hne. destruct (String.compare x y) eqn:E.
  - apply compare_Eq in E. contradiction.
  - left. now apply compare_Lt.
  - right. now apply compare_Gt.
Qed.

Lemma insert_key_In (x k : string) (ks : list string) :
  In x (insert_key String.compare k ks) <-> x = k \/ In x ks.
Proof.
  induction ks as [|k' ks IH]; simpl.
  - intuition.
  - destruct (String.compare k k') eqn:E; simpl.
    + apply compare_Eq in E. subst k'. intuition.
    + intuition.
    + rewrite IH. intuition.
Qed.

Lemma group_keys_In (x : string) (l : list string) :
  In x (group_keys String.compare l) <-> In x l.
Proof.
  induction l as [|k l IH]; simpl.
  - tauto.
  - rewrite insert_key_In, IH. intuition.
Qed.

Lemma insert_key_sorted (k : string) (ks : list string) :
  StronglySorted slt ks -> StronglySorted slt (insert_key String.compare k ks).
Proof.
  induction 1 as [|k' ks Hs IH Hall]; simpl.
  - constructor; constructor.
  - destruct (String.compare k k') eqn:E.
    + now constructor.
    + apply compare_Lt in E. constructor.
      * now constructor.
      * constructor; [exact E|].
        rewrite Forall_forall in *. intros y Hy.
        eapply slt_trans; [exact E | now apply Hall].
    + apply compare_Gt in E. constructor; [exact IH|].
      rewrite Forall_forall in *. intros y Hy.
      apply insert_key_In in Hy. destruct Hy as [-> | Hy]; auto.
Qed.

Lemma group_keys_sorted (l : list string) :
  StronglySorted slt (group_keys String.compare l).
Proof.
  induction l as [|k l IH]; simpl.
  - constructor.
  - now apply insert_key_sorted.
Qed.

(** A strictly increasing list whose members are exactly [a] and [b]. *)
Lemma sorted_pair (a b : string) (ks : list string) :
  StronglySorted slt ks -> slt a b ->
  (forall x, In x ks <-> x = a \/ x = b) -> ks = [a; b].
Proof.
  intros Hs Hab Hin.
  assert (Ha : In a ks) by (apply Hin; now left).
  assert (Hb : In b ks) by (apply Hin; now right).
  destruct ks as [|x ks]; [contradiction|].
  inversion Hs as [|? ? Hs' Hall]; subst.
  rewrite Forall_forall in Hall.
  assert (Hx : x = a).
  { destruct (proj1 (Hin x) (or_introl eq_refl)) as [-> | ->]; [reflexivity|].
    destruct Ha as [Ha|Ha]; [now symmetry|].
    exfalso. exact (slt_asym _ _ Hab (Hall _ Ha)). }
  subst x.
  destruct Hb as [Hb|Hb]; [subst; now apply slt_irrefl in Hab|].
  destruct ks as [|y ks]; [contradiction|].
  inversion Hs' as [|? ? Hs'' Hall']; subst.
  rewrite Forall_forall in Hall'.
  assert (Hy : y = b).
  { destruct (proj1 (Hin y) (or_intror (or_introl eq_refl))) as [-> | ->];
      [|reflexivity].
    exfalso. exact (slt_irrefl _ (Hall _ (or_introl eq_refl))). }
  subst y.
  destruct ks as [|z ks]; [reflexivity|].
  exfalso.
  destruct (proj1 (Hin z) (or_intror (or_intror (or_introl eq_refl))))
    as [-> | ->].
  - exact (slt_irrefl _ (Hall _ (or_intror (or_introl eq_refl)))).
  - exact (slt_irrefl _ (Hall' _ (or_introl eq_refl))).
Qed.

Lemma group_keys_pair (a b : string) (labels : list string) :
  slt a b -> In a labels -> In b labels ->
  (forall l, In l labels -> l = a \/ l = b) ->
  group_keys String.compare labels = [a; b].
Proof.
  intros Hab Ha Hb Hall.
  apply sorted_pair; [apply group_keys_sorted | exact Hab |].
  intro x. rewrite group_keys_In. split.
  - apply Hall.
  - intros [->| ->]; assumption.
Qed.

(** ** Evaluating the statistic *)

Lemma group_values_outcomes (g : string) (labels : list string)
    (results : list Q) :
  group_values String.compare g labels results = outcomes g labels results.
Proof.
  unfold outcomes. revert results.
  induction labels as [|l labels IH]; intros [|x results]; simpl; auto.
  destruct (String.compare l g) eqn:E.
  - apply compare_Eq in E. subst l. rewrite String.eqb_refl. simpl.
    now rewrite IH.
  - assert (Hne : l <> g).
    { intros ->. apply compare_Lt in E. now apply slt_irrefl in E. }
    apply String.eqb_neq in Hne. rewrite Hne. apply IH.
  - assert (Hne : l <> g).
    { intros ->. apply compare_Gt in E. now apply slt_irrefl in E. }
    apply String.eqb_neq in Hne. rewrite Hne. apply IH.
Qed.

Lemma read_group_mean (h : heap) (r : ref) (d : DataFrame)
    (group_label : string) (i : nat) :
  nth_error h r = Some d ->
  (d <- load r ;;
   g <- lift (groupby_mean d group_label) ;;
   row <- lift (iloc g i) ;;
   lift (item0 row)) h = (group_mean_at d group_label i, h).
Proof.
  intro Hh. unfold bind, load, lift, group_mean_at. rewrite Hh.
  destruct (groupby_mean d group_label) as [g|e]; [|reflexivity].
  destruct (iloc g i) as [row|e]; reflexivity.
Qed.

Lemma difference_of_means_abs_reads (h : heap) (r : ref) (d : DataFrame)
    (group_label : string) :
  nth_error h r = Some d ->
  difference_of_means_abs r group_label h =
  (match group_mean_at d group_label 0 with
   | Raise e => Raise e
   | Ok one_value =>
       match group_mean_at d group_label 1 with
       | Raise e => Raise e
       | Ok another_value => Ok (Qabs (one_value - another_value))
       end
   end, h).
Proof.
  intro Hh. unfold difference_of_means_abs.
  unfold bind at 1. rewrite (read_group_mean h r d group_label 0 Hh).
  destruct (group_mean_at d group_label 0) as [x|e]; [|reflexivity].
  unfold bind at 1. rewrite (read_group_mean h r d group_label 1 Hh).
  destruct (group_mean_at d group_label 1) as [y|e]; reflexivity.
Qed.

(** The value of the statistic on a frame whose grouping column holds
    strings and whose first other numeric column is [vals]: the groups at
    positions 0 and 1 of the sorted keys are compared, and the heap is left
    as it is. *)
Lemma difference_of_means_abs_eval (h : heap) (r : ref) (d : DataFrame)
    (group_label name : string) (ks : list string) (vals : list Q)
    (others : list (string * list Q)) :
  nth_error h r = Some d ->
  getitem d group_label = Ok (Object ks) ->
  numeric_columns (remove_column d group_label) = (name, vals) :: others ->
  difference_of_means_abs r group_label h =
  (match group_keys String.compare ks with
   | k0 :: k1 :: _ =>
       Ok (Qabs (mean (outcomes k0 ks vals) - mean (outcomes k1 ks vals)))
   | _ => Raise IndexError
   end, h).
Proof.
  intros Hh Hget Hnum.
  rewrite (difference_of_means_abs_reads h r d group_label Hh).
  unfold group_mean_at, groupby_mean. rewrite Hget, Hnum.
  unfold iloc, group_means. simpl n_groups. simpl mean_columns.
  destruct (group_keys String.compare ks) as [|k0 [|k1 rest]]; simpl.
  - reflexivity.
  - reflexivity.
  - now rewrite !group_values_outcomes.
Qed.

Lemma dataset_eval (h : heap) (r : ref) (d : DataFrame)
    (labels : list string) (results : list Q) :
  nth_error h r = Some d ->
  holds_dataset d labels results ->
  difference_of_means_abs r "Group" h =
  (match group_keys String.compare labels with
   | k0 :: k1 :: _ =>
       Ok (Qabs (mean (outcomes k0 labels results)
                 - mean (outcomes k1 labels results)))
   | _ => Raise IndexError
   end, h).
Proof.
  intros Hh Hd.
  destruct Hd as [-> | [old ->]];
    exact (difference_of_means_abs_eval h r _ "Group" "Result" labels results
             [] Hh eq_refl eq_refl).
Qed.

Lemma two_groups_eval (h : heap) (r : ref) (d : DataFrame)
    (labels : list string) (results : list Q) (a b : string) :
  nth_error h r = Some d ->
  holds_dataset d labels results ->
  slt a b -> In a labels -> In b labels ->
  (forall l, In l labels -> l = a \/ l = b) ->
  difference_of_means_abs r "Group" h =
  (Ok (Qabs (mean (outcomes a labels results)
             - mean (outcomes b labels results))), h).
Proof.
  intros Hh Hd Hab Ha Hb Hall.
  rewrite (dataset_eval h r d labels results Hh Hd).
  now rewrite (group_keys_pair a b labels Hab Ha Hb Hall).
Qed.

Lemma difference_of_means_abs_reads_two (h : heap) (r : ref)
    (d : DataFrame)
    (labels : list string) (results : list Q) (a b : string) :
  nth_error h r = Some d ->
  holds_dataset d labels results ->
  a <> b -> In a labels -> In b labels ->
  (forall l, In l labels -> l = a \/ l = b) ->
  exists v : Q, difference_of_means_abs r "Group" h = (Ok v, h).
Proof.
  intros Hh Hd Hne Ha Hb Hall.
  destruct (slt_total a b Hne) as [Hab|Hba].
  - eexists. now apply (two_groups_eval h r d labels results a b).
  - eexists. apply (two_groups_eval h r d labels results b a); auto.
    intros l Hl. destruct (Hall l Hl); auto.
Qed.

(** ** The statistic on two groups *)

(** C2. On a dataset whose rows carry two labels, both present, the
    statistic function returns a value, that value is non-negative, and it
    is the absolute value of the difference between the mean outcome of
    one group and the mean outcome of the other.  This holds for the table
    as loaded and for the table to which a relabelling has added its
    [Shuffled Label] column. *)
Theorem difference_of_means_abs_two_groups (h : heap) (r : ref)
    (d : DataFrame)
    (labels : list string) (results : list Q) (a b : string) :
  nth_error h r = Some d ->
  holds_dataset d labels results ->
  a <> b -> In a labels -> In b labels ->
  (forall l, In l labels -> l = a \/ l = b) ->
  exists v : Q,
    difference_of_means_abs r "Group" h = (Ok v, h) /\
    (0 <= v)%Q /\
    (v == Qabs (mean (outcomes a labels results)
                - mean (outcomes b labels results)))%Q.
Proof.
  intros Hh Hd Hne Ha Hb Hall.
  destruct (slt_total a b Hne) as [Hab|Hba].
  - eexists. split; [now apply (two_groups_eval h r d labels results a b)|].
    split; [apply Qabs_nonneg | reflexivity].
  - eexists. split.
    + apply (two_groups_eval h r d labels results b a); auto.
      intros l Hl. destruct (Hall l Hl); auto.
    + split; [apply Qabs_nonneg|]. now rewrite Qabs_Qminus.
Qed.

Lemma difference_of_means_abs_two_groups_witness :
  exists v : Q,
    difference_of_means_abs 0 "Group" [bta_df] = (Ok v, [bta_df]) /\
    (0 <= v)%Q /\
    (v == Qabs (mean (outcomes "Control" bta_labels bta_results)
                - mean (outcomes "Treatment" bta_labels bta_results)))%Q.
Proof.
  apply (difference_of_means_abs_two_groups [bta_df] 0 bta_df bta_labels
           bta_results "Control" "Treatment").
  - reflexivity.
  - left. reflexivity.
  - discriminate.
  - simpl. auto.
  - simpl. auto 40.
  - intros l Hl. simpl in Hl.
    repeat (destruct Hl as [Hl|Hl]; [subst l; auto|]). contradiction.
Defined.

Lemma swap_label_l (a b : string) : swap_label a b a = b.
Proof. unfold swap_label. now rewrite String.eqb_refl. Qed.

Lemma swap_label_r (a b : string) : a <> b -> swap_label a b b = a.
Proof.
  intro Hne. unfold swap_label.
  assert (E : String.eqb b a = false) by (apply String.eqb_neq; congruence).
  now rewrite E, String.eqb_refl.
Qed.

Lemma outcomes_swap (a b : string) (labels : list string) (results : list Q) :
  a <> b ->
  (forall l, In l labels -> l = a \/ l = b) ->
  outcomes a (map (swap_label a b) labels) results = outcomes b labels results
  /\
  outcomes b (map (swap_label a b) labels) results = outcomes a labels results.
Proof.
  intros Hne. unfold outcomes. revert results.
  assert (Eab : String.eqb a b = false) by now apply String.eqb_neq.
  assert (Eba : String.eqb b a = false) by (apply String.eqb_neq; congruence).
  induction labels as [|l labels IH]; intros results Hall; [now split|].
  destruct results as [|x results]; [now split|].
  destruct (IH results (fun l' H => Hall l' (or_intror H))) as [IH1 IH2].
  simpl.
  destruct (Hall l (or_introl eq_refl)) as [-> | ->].
  - rewrite swap_label_l, !String.eqb_refl, Eab, Eba. simpl.
    now rewrite IH1, IH2.
  - rewrite (swap_label_r a b Hne), !String.eqb_refl, Eab, Eba. simpl.
    now rewrite IH1, IH2.
Qed.

(** C3. Exchanging the two labels on every row of a dataset with two
    non-empty groups leaves the value of the statistic unchanged: the
    statistic of the table [d'] with the labels exchanged is the statistic
    of the table [d]. *)
Theorem difference_of_means_abs_symmetric (h h' : heap) (r r' : ref)
    (d d' : DataFrame)
    (labels : list string) (results : list Q) (a b : string) :
  nth_error h r = Some d ->
  nth_error h' r' = Some d' ->
  holds_dataset d labels results ->
  holds_dataset d' (map (swap_label a b) labels) results ->
  a <> b -> In a labels -> In b labels ->
  (forall l, In l labels -> l = a \/ l = b) ->
  exists v v' : Q,
    difference_of_means_abs r "Group" h = (Ok v, h) /\
    difference_of_means_abs r' "Group" h' = (Ok v', h') /\
    v' = v.
Proof.
  intros Hh Hh' Hd Hd' Hne Ha Hb Hall.
  destruct (outcomes_swap a b labels results Hne Hall) as [Oa Ob].
  assert (Ha' : In a (map (swap_label a b) labels)).
  { apply in_map_iff. exists b. split; [now apply swap_label_r | exact Hb]. }
  assert (Hb' : In b (map (swap_label a b) labels)).
  { apply in_map_iff. exists a. split; [apply swap_label_l | exact Ha]. }
  assert (Hall' : forall l, In l (map (swap_label a b) labels) ->
                            l = a \/ l = b).
  { intros l Hl. apply in_map_iff in Hl. destruct Hl as [l0 [<- Hl0]].
    destruct (Hall l0 Hl0) as [-> | ->].
    - right. apply swap_label_l.
    - left. now apply swap_label_r. }
  destruct (slt_total a b Hne) as [Hab|Hba].
  - pose proof (two_groups_eval h r d labels results a b Hh Hd Hab Ha Hb Hall)
      as E.
    pose proof (two_groups_eval h' r' d' _ results a b Hh' Hd' Hab Ha' Hb'
                  Hall') as E'.
    rewrite Oa, Ob in E'.
    do 2 eexists. split; [exact E|]. split; [exact E'|]. apply Qabs_Qminus.
  - assert (Hflip : forall l, In l labels -> l = b \/ l = a).
    { intros l Hl. destruct (Hall l Hl); auto. }
    assert (Hflip' : forall l, In l (map (swap_label a b) labels) ->
                               l = b \/ l = a).
    { intros l Hl. destruct (Hall' l Hl); auto. }
    pose proof (two_groups_eval h r d labels results b a Hh Hd Hba Hb Ha Hflip)
      as E.
    pose proof (two_groups_eval h' r' d' _ results b a Hh' Hd' Hba Hb' Ha'
                  Hflip') as E'.
    rewrite Oa, Ob in E'.
    do 2 eexists. split; [exact E|]. split; [exact E'|]. apply Qabs_Qminus.
Qed.

Lemma difference_of_means_abs_symmetric_witness :
  exists v v' : Q,
    difference_of_means_abs 0 "Group" [bta_df] = (Ok v, [bta_df]) /\
    difference_of_means_abs 1 "Group"
      [bta_df;
       dataset (map (swap_label "Control" "Treatment") bta_labels) bta_results]
    = (Ok v',
       [bta_df;
        dataset (map (swap_label "Control" "Treatment") bta_labels)
          bta_results]) /\
    v' = v.
Proof.
  apply (difference_of_means_abs_symmetric _ _ 0 1 bta_df
           (dataset (map (swap_label "Control" "Treatment") bta_labels)
              bta_results)
           bta_labels bta_results "Control" "Treatment").
  - reflexivity.
  - reflexivity.
  - left. reflexivity.
  - left. reflexivity.
  - discriminate.
  - simpl. auto.
  - simpl. auto 40.
  - intros l Hl. simpl in Hl.
    repeat (destruct Hl as [Hl|Hl]; [subst l; auto|]). contradiction.
Defined.

(** ** The observed statistic of the trial *)

Lemma outcomes_In (g : string) (labels : list string) (results : list Q)
    (x : Q) :
  In x (outcomes g labels results) -> In x results /\ In g labels.
Proof.
  unfold outcomes. intro H. apply in_map_iff in H.
  destruct H as [[l y] [Hx Hf]]. simpl in Hx. subst y.
  apply filter_In in Hf. destruct Hf as [Hc He]. simpl in He.
  apply String.eqb_eq in He. subst l.
  split; [eapply in_combine_r | eapply in_combine_l]; exact Hc.
Qed.

Lemma Qsum_binary (l : list Q) :
  (forall x, In x l -> x = 0%Q \/ x = 1%Q) ->
  (Qsum l == inject_Z (Z.of_nat (successes l)))%Q.
Proof.
  unfold successes.
  induction l as [|x l IH]; intro Hbin; [reflexivity|].
  simpl Qsum. rewrite IH by (intros y Hy; apply Hbin; now right).
  destruct (Hbin x (or_introl eq_refl)) as [-> | ->]; simpl filter.
  - apply Qplus_0_l.
  - simpl length. rewrite Nat2Z.inj_succ. unfold Z.succ.
    rewrite inject_Z_plus. apply Qplus_comm.
Qed.

Lemma mean_binary (l : list Q) (n s : nat) :
  (forall x, In x l -> x = 0%Q \/ x = 1%Q) ->
  length l = n -> successes l = s ->
  (mean l == inject_Z (Z.of_nat s) / inject_Z (Z.of_nat n))%Q.
Proof.
  intros Hbin <- <-. unfold mean. now rewrite Qsum_binary.
Qed.

Lemma slt_Control_Treatment : slt "Control" "Treatment".
Proof. now apply compare_Lt. Qed.

(** C6. On a dataset of 16 control rows with 2 reliefs and 15 treatment
    rows with 9 reliefs, whatever the order of the rows, the statistic
    function returns 0.475. *)
Theorem observed_difference_bta (h : heap) (r : ref) (d : DataFrame)
    (labels : list string) (results : list Q) :
  nth_error h r = Some d ->
  holds_dataset d labels results ->
  (forall l, In l labels -> l = "Control" \/ l = "Treatment") ->
  (forall x, In x results -> x = 0%Q \/ x = 1%Q) ->
  length (outcomes "Control" labels results) = 16 ->
  successes (outcomes "Control" labels results) = 2 ->
  length (outcomes "Treatment" labels results) = 15 ->
  successes (outcomes "Treatment" labels results) = 9 ->
  exists v : Q,
    difference_of_means_abs r "Group" h = (Ok v, h) /\ (v == 0.475)%Q.
Proof.
  intros Hh Hd Hall Hbin Hc Hcs Ht Hts.
  assert (Hbin' : forall g x, In x (outcomes g labels results) ->
                              x = 0%Q \/ x = 1%Q).
  { intros g x Hx. apply Hbin. now apply (outcomes_In g labels results x). }
  assert (Hin : forall g n, length (outcomes g labels results) = S n ->
                            In g labels).
  { intros g n Hlen.
    destruct (outcomes g labels results) as [|x l] eqn:E; [discriminate|].
    apply (outcomes_In g labels results x). rewrite E. now left. }
  eexists. split.
  - apply (two_groups_eval h r d labels results "Control" "Treatment" Hh Hd
             slt_Control_Treatment (Hin _ _ Hc) (Hin _ _ Ht) Hall).
  - rewrite (mean_binary _ 16 2 (Hbin' "Control") Hc Hcs).
    rewrite (mean_binary _ 15 9 (Hbin' "Treatment") Ht Hts).
    reflexivity.
Qed.

Lemma observed_difference_bta_witness :
  exists v : Q,
    difference_of_means_abs 0 "Group" [bta_df_shuffled]
    = (Ok v, [bta_df_shuffled]) /\
    (v == 0.475)%Q.
Proof.
  apply (observed_difference_bta [bta_df_shuffled] 0 bta_df_shuffled
           bta_labels bta_results).
  - reflexivity.
  - right. eexists. reflexivity.
  - intros l Hl. simpl in Hl.
    repeat (destruct Hl as [Hl|Hl]; [subst l; auto|]). contradiction.
  - intros x Hx. simpl in Hx.
    repeat (destruct Hx as [Hx|Hx]; [subst x; auto|]). contradiction.
  - reflexivity.
  - reflexivity.
  - reflexivity.
  - reflexivity.
Defined.

(** The same arithmetic in binary64, on the sums and sizes of the two
    groups: the quotient 9/15 is rounded, the subtraction is exact, and the
    result is the double nearest to 0.475, the one Python prints as
    [0.475]. *)
Example observed_difference_binary64 :
  PrimFloat.abs (PrimFloat.sub (PrimFloat.div 2 16) (PrimFloat.div 9 15))
  = (0x1.e666666666666p-2)%float.
Proof. reflexivity. Qed.

(** ** Failure of the statistic *)

Lemma group_keys_single (c : string) (labels : list string) :
  (forall l, In l labels -> l = c) ->
  group_keys String.compare labels = [] \/
  group_keys String.compare labels = [c].
Proof.
  induction labels as [|l labels IH]; intro Hall; [now left|].
  right. simpl. rewrite (Hall l (or_introl eq_refl)).
  destruct (IH (fun l' H => Hall l' (or_intror H))) as [-> | ->]; simpl.
  - reflexivity.
  - now rewrite (proj2 (compare_Eq c c) eq_refl).
Qed.

Lemma one_group_eval (h : heap) (r : ref) (d : DataFrame)
    (labels : list string) (results : list Q) (c : string) :
  nth_error h r = Some d ->
  holds_dataset d labels results ->
  (forall l, In l labels -> l = c) ->
  difference_of_means_abs r "Group" h = (Raise IndexError, h).
Proof.
  intros Hh Hd Hall. rewrite (dataset_eval h r d labels results Hh Hd).
  now destruct (group_keys_single c labels Hall) as [-> | ->].
Qed.

(** C8, as the code has it. On a dataset labelled with [a] and [b] the
    statistic function fails exactly when one of the two groups is empty,
    and then with an [IndexError] (the grouped frame has no second row),
    not with a division by zero; it returns a value exactly when both
    groups are non-empty, whatever the outcomes are.  Either way no data
    frame is modified. *)
Theorem difference_of_means_abs_fails_iff (h : heap) (r : ref) (d : DataFrame)
    (labels : list string) (results : list Q) (a b : string) :
  nth_error h r = Some d ->
  holds_dataset d labels results ->
  a <> b ->
  (forall l, In l labels -> l = a \/ l = b) ->
  ((~ In a labels \/ ~ In b labels) <->
   difference_of_means_abs r "Group" h = (Raise IndexError, h)) /\
  ((In a labels /\ In b labels) <->
   exists v : Q, difference_of_means_abs r "Group" h = (Ok v, h)).
Proof.
  intros Hh Hd Hne Hall.
  assert (Hempty : ~ In a labels \/ ~ In b labels ->
                   difference_of_means_abs r "Group" h = (Raise IndexError, h)).
  { intros [Hna|Hnb].
    - apply (one_group_eval h r d labels results b Hh Hd).
      intros l Hl. destruct (Hall l Hl) as [-> | ->]; [contradiction|easy].
    - apply (one_group_eval h r d labels results a Hh Hd).
      intros l Hl. destruct (Hall l Hl) as [-> | ->]; [easy|contradiction]. }
  assert (Hboth : In a labels /\ In b labels ->
                  exists v, difference_of_means_abs r "Group" h = (Ok v, h)).
  { intros [Ha Hb].
    destruct (difference_of_means_abs_reads_two h r d labels results a b
                Hh Hd Hne Ha Hb Hall) as [v Hv].
    now exists v. }
  destruct (in_dec string_dec a labels) as [Ha|Hna];
    destruct (in_dec string_dec b labels) as [Hb|Hnb].
  - destruct (Hboth (conj Ha Hb)) as [v Hv]. split; split; intro H.
    + tauto.
    + rewrite Hv in H. discriminate.
    + now exists v.
    + now split.
  - split; split; intro H; try tauto.
    destruct H as [v Hv]. rewrite Hempty in Hv by tauto. discriminate.
  - split; split; intro H; try tauto.
    destruct H as [v Hv]. rewrite Hempty in Hv by tauto. discriminate.
  - split; split; intro H; try tauto.
    destruct H as [v Hv]. rewrite Hempty in Hv by tauto. discriminate.
Qed.

(** The claim as the specification words it fails: with an empty treatment
    group the exception is an [IndexError], not a division by zero; and
    outcomes that are not 0 or 1 are not rejected. *)
Lemma division_by_zero_counterexample :
  let h := [dataset ["Control"; "Control"] [1%Q; 0%Q]] in
  let h' := [dataset ["Control"; "Treatment"] [7%Q; 2%Q]] in
  ~ In "Treatment" ["Control"; "Control"] /\
  difference_of_means_abs 0 "Group" h = (Raise IndexError, h) /\
  difference_of_means_abs 0 "Group" h <> (Raise ZeroDivisionError, h) /\
  difference_of_means_abs 0 "Group" h' = (Ok (Qabs (7 / 1 - 2 / 1))%Q, h').
Proof.
  simpl. split; [|split; [|split]].
  - intros [H|[H|[]]]; discriminate.
  - reflexivity.
  - discriminate.
  - reflexivity.
Qed.

Lemma difference_of_means_abs_fails_iff_witness :
  let h := [dataset ["Control"; "Control"] [1%Q; 0%Q]] in
  ((~ In "Control" ["Control"; "Control"] \/
    ~ In "Treatment" ["Control"; "Control"]) <->
   difference_of_means_abs 0 "Group" h = (Raise IndexError, h)) /\
  ((In "Control" ["Control"; "Control"] /\
    In "Treatment" ["Control"; "Control"]) <->
   exists v : Q, difference_of_means_abs 0 "Group" h = (Ok v, h)).
Proof.
  apply (difference_of_means_abs_fails_iff _ 0
           (dataset ["Control"; "Control"] [1%Q; 0%Q])
           ["Control"; "Control"] [1%Q; 0%Q] "Control" "Treatment").
  - reflexivity.
  - left. reflexivity.
  - discriminate.
  - intros l Hl. simpl in Hl.
    repeat (destruct Hl as [Hl|Hl]; [subst l; auto|]). contradiction.
Defined.

(** ** More than two groups *)

Lemma three_distinct_length {A : Type} (a b c : A) (l : list A) :
  In a l -> In b l -> In c l -> a <> b -> a <> c -> b <> c ->
  exists x y z rest, l = x :: y :: z :: rest.
Proof.
  intros Ha Hb Hc Hab Hac Hbc.
  destruct l as [|x [|y [|z rest]]]; simpl in *.
  - contradiction.
  - exfalso. intuition congruence.
  - exfalso. intuition congruence.
  - now exists x, y, z, rest.
Qed.

(** C10. When the label column holds more than two distinct labels, the
    statistic function does not fail: it returns the absolute difference
    between the means of the groups of the two smallest labels, the first
    two of the sorted distinct labels, and the other groups play no part
    in the value. *)
Theorem difference_of_means_abs_many_groups (h : heap) (r : ref) (d : DataFrame)
    (labels : list string) (results : list Q) (a b c : string) :
  nth_error h r = Some d ->
  holds_dataset d labels results ->
  In a labels -> In b labels -> In c labels ->
  a <> b -> a <> c -> b <> c ->
  exists (k0 k1 k2 : string) (rest : list string),
    group_keys String.compare labels = k0 :: k1 :: k2 :: rest /\
    StronglySorted slt (k0 :: k1 :: k2 :: rest) /\
    (forall l, In l labels <-> In l (k0 :: k1 :: k2 :: rest)) /\
    difference_of_means_abs r "Group" h =
    (Ok (Qabs (mean (outcomes k0 labels results)
               - mean (outcomes k1 labels results))), h).
Proof.
  intros Hh Hd Ha Hb Hc Hab Hac Hbc.
  destruct (three_distinct_length a b c (group_keys String.compare labels))
    as [k0 [k1 [k2 [rest E]]]]; try assumption;
    try (now apply group_keys_In).
  exists k0, k1, k2, rest. split; [exact E|]. split; [|split].
  - rewrite <- E. apply group_keys_sorted.
  - intro l. rewrite <- E. symmetry. apply group_keys_In.
  - rewrite (dataset_eval h r d labels results Hh Hd). now rewrite E.
Qed.

Lemma difference_of_means_abs_many_groups_witness :
  let labels := ["Treatment"; "Placebo"; "Control"; "Placebo"] in
  let results := [1%Q; 0%Q; 1%Q; 1%Q] in
  exists (k0 k1 k2 : string) (rest : list string),
    group_keys String.compare labels = k0 :: k1 :: k2 :: rest /\
    StronglySorted slt (k0 :: k1 :: k2 :: rest) /\
    (forall l, In l labels <-> In l (k0 :: k1 :: k2 :: rest)) /\
    difference_of_means_abs 0 "Group" [dataset labels results] =
    (Ok (Qabs (mean (outcomes k0 labels results)
               - mean (outcomes k1 labels results))),
     [dataset labels results]).
Proof.
  apply (difference_of_means_abs_many_groups _ 0
           (dataset ["Treatment"; "Placebo"; "Control"; "Placebo"]
              [1%Q; 0%Q; 1%Q; 1%Q])
           ["Treatment"; "Placebo"; "Control"; "Placebo"]
           [1%Q; 0%Q; 1%Q; 1%Q] "Control" "Placebo" "Treatment").
  - reflexivity.
  - left. reflexivity.
  - simpl. auto.
  - simpl. auto.
  - simpl. auto.
  - discriminate.
  - discriminate.
  - discriminate.
Defined.

(** ** The heap *)

Lemma bind_ok {A B : Type} (m : M A) (f : A -> M B) (h h' : heap) (a : A) :
  m h = (Ok a, h') -> bind m f h = f a h'.
Proof. intro E. unfold bind. now rewrite E. Qed.

Lemma length_update (h : heap) (r : ref) (d : DataFrame) :
  length (update h r d) = length h.
Proof.
  revert r. induction h as [|d' h IH]; intros [|r]; simpl; auto.
Qed.

Lemma nth_error_update_same (h : heap) (r : ref) (d d' : DataFrame) :
  nth_error h r = Some d -> nth_error (update h r d') r = Some d'.
Proof.
  revert r. induction h as [|d0 h IH]; intros [|r]; simpl; try discriminate.
  - reflexivity.
  - apply IH.
Qed.


Lemma nth_error_alloc (h : heap) (d : DataFrame) :
  nth_error (h ++ [d]) (length h) = Some d.
Proof.
  rewrite nth_error_app2 by apply Nat.le_refl.
  now rewrite Nat.sub_diag.
Qed.

(** The statistic function reads the heap and never writes it. *)
Lemma difference_of_means_abs_heap (h : heap) (r : ref)
    (group_label : string) :
  snd (difference_of_means_abs r group_label h) = h.
Proof.
  destruct (nth_error h r) as [d|] eqn:Hh.
  - now rewrite (difference_of_means_abs_reads h r d group_label Hh).
  - unfold difference_of_means_abs, bind, load. now rewrite Hh.
Qed.

(** ** One relabelling *)

(** One call of [one_simulated_difference] on the trial's table: the labels
    are taken in the drawn order, written into the caller's frame as
    [Shuffled Label], and the statistic is computed on a new frame made of
    the outcomes and the shuffled labels. *)
Lemma one_simulated_difference_eval (h : heap) (r : ref) (d : DataFrame)
    (labels : list string) (results : list Q) (perm : list nat) :
  nth_error h r = Some d ->
  holds_dataset d labels results ->
  one_simulated_difference perm r "Group" h =
  (match group_keys String.compare (take perm labels) with
   | k0 :: k1 :: _ =>
       Ok (Qabs (mean (outcomes k0 (take perm labels) results)
                 - mean (outcomes k1 (take perm labels) results)))
   | _ => Raise IndexError
   end,
   update h r (dataset labels results
               ++ [("Shuffled Label", Object (take perm labels))])
   ++ [[("Result", Numeric results);
        ("Shuffled Label", Object (take perm labels))]]).
Proof.
  intros Hh Hd.
  set (shuffled := take perm labels).
  set (d1 := dataset labels results ++ [("Shuffled Label", Object shuffled)]).
  set (d2 := [("Result", Numeric results);
              ("Shuffled Label", Object shuffled)]).
  unfold one_simulated_difference.
  assert (S1 : exists temp_df,
             (d <- load r ;; lift (reset_index (sample perm d))) h
             = (Ok temp_df, h) /\
             getitem temp_df "Group" = Ok (Object shuffled)).
  { unfold bind, load, lift. rewrite Hh.
    destruct Hd as [-> | [old ->]]; eexists; split; reflexivity. }
  destruct S1 as [temp_df [S1 G1]].
  rewrite (bind_ok _ _ _ _ _ S1).
  assert (S2 : lift (getitem temp_df "Group") h = (Ok (Object shuffled), h))
    by (unfold lift; now rewrite G1).
  rewrite (bind_ok _ _ _ _ _ S2).
  assert (S3 : (d <- load r ;;
                store r (setitem d "Shuffled Label" (Object shuffled))) h
               = (Ok tt, update h r d1)).
  { unfold bind, load, store. rewrite Hh.
    destruct Hd as [-> | [old ->]]; reflexivity. }
  rewrite (bind_ok _ _ _ _ _ S3).
  assert (S4 : (d <- load r ;; d' <- lift (drop d "Group") ;; alloc d')
                 (update h r d1)
               = (Ok (length h), update h r d1 ++ [d2])).
  { unfold bind, load, lift, alloc.
    rewrite (nth_error_update_same h r d d1 Hh). simpl.
    now rewrite length_update. }
  rewrite (bind_ok _ _ _ _ _ S4).
  apply (difference_of_means_abs_eval _ _ d2 "Shuffled Label" "Result"
           shuffled results []).
  - rewrite <- (length_update h r d1). apply nth_error_alloc.
  - reflexivity.
  - reflexivity.
Qed.

Lemma take_seq_app {A : Type} (l1 l2 : list A) :
  take (seq (length l1) (length l2)) (l1 ++ l2) = l2.
Proof.
  revert l1. induction l2 as [|x l2 IH]; intro l1; [reflexivity|].
  simpl. rewrite nth_error_app2 by apply Nat.le_refl.
  rewrite Nat.sub_diag. simpl. f_equal.
  specialize (IH (l1 ++ [x])).
  rewrite length_app, Nat.add_1_r, <- app_assoc in IH. exact IH.
Qed.

Lemma take_seq {A : Type} (l : list A) : take (seq 0 (length l)) l = l.
Proof. exact (take_seq_app [] l). Qed.

Lemma take_Permutation {A : Type} (perm : list nat) (l : list A) :
  Permutation perm (seq 0 (length l)) -> Permutation (take perm l) l.
Proof.
  intro Hp. rewrite <- (take_seq l) at 2.
  unfold take. now apply Permutation_flat_map.
Qed.

(** C4. One iteration of the resampler relabels the rows with a
    permutation of the original labels: the shuffled labels written next to
    the outcomes are the original labels in another order, so every label
    keeps its number of rows. *)
Theorem one_simulated_difference_permutes_labels (h : heap) (r : ref)
    (d : DataFrame) (labels : list string) (results : list Q)
    (perm : list nat) :
  nth_error h r = Some d ->
  holds_dataset d labels results ->
  Permutation perm (seq 0 (length labels)) ->
  exists shuffled : list string,
    nth_error (snd (one_simulated_difference perm r "Group" h)) (length h)
    = Some [("Result", Numeric results); ("Shuffled Label", Object shuffled)]
    /\
    nth_error (snd (one_simulated_difference perm r "Group" h)) r
    = Some (dataset labels results ++ [("Shuffled Label", Object shuffled)])
    /\
    Permutation shuffled labels /\
    length shuffled = length labels /\
    forall g : string,
      count_occ string_dec shuffled g = count_occ string_dec labels g.
Proof.
  intros Hh Hd Hp.
  rewrite (one_simulated_difference_eval h r d labels results perm Hh Hd).
  pose proof (take_Permutation perm labels Hp) as Hperm.
  exists (take perm labels). simpl snd. split; [|split; [|split; [|split]]].
  - rewrite <- (length_update h r
                  (dataset labels results
                   ++ [("Shuffled Label", Object (take perm labels))])).
    apply nth_error_alloc.
  - assert (Hr : r < length h) by (apply nth_error_Some; congruence).
    rewrite nth_error_app1 by now rewrite length_update.
    now apply (nth_error_update_same h r d).
  - exact Hperm.
  - now apply Permutation_length.
  - intro g. now apply Permutation_count_occ.
Qed.

Lemma one_simulated_difference_permutes_labels_witness :
  exists shuffled : list string,
    nth_error
      (snd (one_simulated_difference (rev (seq 0 31)) 0 "Group" [bta_df])) 1
    = Some [("Result", Numeric bta_results);
            ("Shuffled Label", Object shuffled)]
    /\
    nth_error
      (snd (one_simulated_difference (rev (seq 0 31)) 0 "Group" [bta_df])) 0
    = Some (dataset bta_labels bta_results
            ++ [("Shuffled Label", Object shuffled)])
    /\
    Permutation shuffled bta_labels /\
    length shuffled = length bta_labels /\
    forall g : string,
      count_occ string_dec shuffled g = count_occ string_dec bta_labels g.
Proof.
  apply (one_simulated_difference_permutes_labels [bta_df] 0 bta_df
           bta_labels bta_results (rev (seq 0 31))).
  - reflexivity.
  - left. reflexivity.
  - symmetry. apply Permutation_rev.
Defined.

(** ** The simulation loop *)







(** ** What the operations write *)

Lemma update_same (h : heap) (r : ref) (d : DataFrame) :
  nth_error h r = Some d -> update h r d = h.
Proof.
  revert r. induction h as [|d0 h IH]; intros [|r]; simpl; try discriminate.
  - now intros [= ->].
  - intro H. now rewrite IH.
Qed.


Lemma getitem_missing (d : DataFrame) (name : string) :
  has_column d name = false -> getitem d name = Raise (KeyError name).
Proof.
  unfold has_column. induction d as [|[n c] d IH]; simpl; [reflexivity|].
  destruct (String.eqb n name); simpl; [discriminate | exact IH].
Qed.


Lemma has_column_sample (perm : list nat) (d : DataFrame) (name : string) :
  has_column (snd (sample perm d)) name = has_column d name.
Proof.
  unfold has_column, sample. simpl.
  induction d as [|[n c] d IH]; simpl; [reflexivity|]. now rewrite IH.
Qed.

Lemma getitem_sample (perm : list nat) (d : DataFrame) (name : string) :
  getitem (snd (sample perm d)) name =
  match getitem d name with
  | Ok c => Ok (take_column perm c)
  | Raise e => Raise e
  end.
Proof.
  unfold sample. simpl. induction d as [|[n c] d IH]; simpl; [reflexivity|].
  destruct (String.eqb n name); [reflexivity | exact IH].
Qed.

Lemma reset_index_cases (perm : list nat) (d : DataFrame) :
  reset_index (sample perm d) =
  let old := Numeric (map (fun i => inject_Z (Z.of_nat i)) perm) in
  if has_column d "index"
  then if has_column d "level_0" then Raise ValueError
       else Ok (("level_0", old) :: snd (sample perm d))
  else Ok (("index", old) :: snd (sample perm d)).
Proof.
  unfold reset_index.
  change (sample perm d) with (perm, snd (sample perm d)). cbv beta iota.
  rewrite (has_column_sample perm d "index").
  destruct (has_column d "index") eqn:Ei.
  - rewrite (has_column_sample perm d "level_0").
    now destruct (has_column d "level_0").
  - rewrite (has_column_sample perm d "index"), Ei. reflexivity.
Qed.

Lemma has_column_setitem_same (d : DataFrame) (name : string) (col : column) :
  has_column (setitem d name col) name = true.
Proof.
  unfold has_column. induction d as [|[n c] d IH]; simpl.
  - now rewrite String.eqb_refl.
  - destruct (String.eqb n name) eqn:E; simpl; rewrite E; simpl;
      [reflexivity | exact IH].
Qed.

Lemma has_column_setitem_other (d : DataFrame) (name name' : string)
    (col : column) :
  name' <> name ->
  has_column (setitem d name col) name' = has_column d name'.
Proof.
  intro Hne. apply not_eq_sym in Hne. apply String.eqb_neq in Hne.
  unfold has_column. induction d as [|[n c] d IH]; simpl.
  - now rewrite Hne.
  - destruct (String.eqb n name) eqn:E; simpl; [reflexivity|].
    now rewrite IH.
Qed.

Lemma getitem_remove_column (d : DataFrame) (name : string) :
  getitem (remove_column d name) name = Raise (KeyError name).
Proof.
  unfold remove_column. induction d as [|[n c] d IH]; simpl; [reflexivity|].
  destruct (String.eqb n name) eqn:E; simpl; [exact IH|].
  now rewrite E.
Qed.

Lemma getitem_cons_other (n name : string) (c : column) (d : DataFrame) :
  n <> name -> getitem ((n, c) :: d) name = getitem d name.
Proof.
  intro Hne. apply String.eqb_neq in Hne.
  change (getitem ((n, c) :: d) name)
    with (if String.eqb n name then Ok c else getitem d name).
  now rewrite Hne.
Qed.

Lemma getitem_Raise (d : DataFrame) (name : string) (e : exn) :
  getitem d name = Raise e -> e = KeyError name.
Proof.
  induction d as [|[n c] d IH]; simpl.
  - now intros [= <-].
  - destruct (String.eqb n name); [discriminate | exact IH].
Qed.

(** The heap after one call of [one_simulated_difference]: the caller's
    frame is as before or has had [Shuffled Label] assigned; nothing else
    is touched, and at most one new frame is added. *)
Lemma one_simulated_difference_heap (h : heap) (r : ref) (d : DataFrame)
    (group_label : string) (perm : list nat) :
  nth_error h r = Some d ->
  exists (d' : DataFrame) (extra : heap),
    snd (one_simulated_difference perm r group_label h)
    = update h r d' ++ extra /\
    (d' = d \/ exists col, d' = setitem d "Shuffled Label" col).
Proof.
  intro Hh.
  assert (Hkeep : h = update h r d ++ [])
    by now rewrite app_nil_r, (update_same h r d Hh).
  unfold one_simulated_difference, bind, load, lift, store, alloc.
  rewrite Hh.
  destruct (reset_index (sample perm d)) as [temp_df|e]; simpl;
    [|exists d, []; split; [exact Hkeep | now left]].
  destruct (getitem temp_df group_label) as [shuffled|e]; simpl;
    [|exists d, []; split; [exact Hkeep | now left]].
  rewrite Hh. cbv beta iota.
  rewrite (nth_error_update_same h r d _ Hh). cbv beta iota.
  set (d1 := setitem d "Shuffled Label" shuffled).
  destruct (drop d1 group_label) as [d2|e]; simpl.
  - exists d1, [d2]. split; [|right; now exists shuffled].
    apply difference_of_means_abs_heap.
  - exists d1, []. split; [now rewrite app_nil_r|right; now exists shuffled].
Qed.










(** ** The empirical p-value *)

Lemma count_nonzero_le (l : list bool) : count_nonzero l <= length l.
Proof. unfold count_nonzero. apply filter_length_le. Qed.

Lemma count_nonzero_map {A : Type} (f : A -> bool) (l : list A) :
  count_nonzero (map f l) = length (filter f l).
Proof.
  unfold count_nonzero.
  induction l as [|x l IH]; simpl; [reflexivity|].
  destruct (f x); simpl; now rewrite IH.
Qed.

(** What [empirical_P] computes: the number of simulated values that are
    at most the observed one, over [repetitions]. *)
Lemma empirical_P_counts_at_most (differences : list Q) (observed : Q)
    (n : nat) :
  empirical_P differences observed (S n) =
  Ok (inject_Z (Z.of_nat (length (filter (fun d => Qle_bool d observed)
                                         differences)))
      / inject_Z (Z.of_nat (S n)))%Q.
Proof.
  unfold empirical_P. now rewrite count_nonzero_map.
Qed.

(** C1, at a failing input. With simulated values 0, 0, 1/2 and observed
    value 1/2 one simulated value out of three is at least the observed
    one, and [empirical_P] returns 3/3: it counts the values that are at
    most the observed one. *)
Theorem empirical_P_counts_the_wrong_tail :
  let differences := [0%Q; 0%Q; (1 # 2)%Q] in
  let observed := (1 # 2)%Q in
  proportion_at_least differences observed = (1 # 3)%Q /\
  empirical_P differences observed 3 = Ok (3 # 3)%Q /\
  ~ (3 # 3 == proportion_at_least differences observed)%Q.
Proof.
  simpl. split; [reflexivity|]. split; [reflexivity|]. discriminate.
Qed.

(** C5. For a repetition count [R > 0] and a null distribution of [R]
    values, the empirical p-value is computed and lies between 0 and 1,
    whatever the observed value. *)
Theorem empirical_P_in_unit_interval (differences : list Q) (observed : Q)
    (repetitions : nat) :
  0 < repetitions ->
  length differences = repetitions ->
  exists p : Q,
    empirical_P differences observed repetitions = Ok p /\
    (0 <= p)%Q /\ (p <= 1)%Q.
Proof.
  intros Hpos Hlen. destruct repetitions as [|n]; [lia|].
  unfold empirical_P.
  set (hits := count_nonzero
                 (map (fun d => Qle_bool d observed) differences)).
  assert (Hhits : hits <= S n).
  { unfold hits. rewrite <- Hlen, <- (length_map
      (fun d => Qle_bool d observed) differences).
    apply count_nonzero_le. }
  assert (HR : (0 < inject_Z (Z.of_nat (S n)))%Q).
  { change 0%Q with (inject_Z 0). rewrite <- Zlt_Qlt. lia. }
  eexists. split; [reflexivity|]. split.
  - apply Qle_shift_div_l; [exact HR|]. rewrite Qmult_0_l.
    change 0%Q with (inject_Z 0). rewrite <- Zle_Qle. lia.
  - apply Qle_shift_div_r; [exact HR|]. rewrite Qmult_1_l.
    rewrite <- Zle_Qle. lia.
Qed.

Lemma empirical_P_in_unit_interval_witness :
  exists p : Q,
    empirical_P [0%Q; 0%Q; (1 # 2)%Q] (1 # 4)%Q 3 = Ok p /\
    (0 <= p)%Q /\ (p <= 1)%Q.
Proof.
  apply (empirical_P_in_unit_interval [0%Q; 0%Q; (1 # 2)%Q] (1 # 4)%Q 3).
  - lia.
  - reflexivity.
Defined.

(** * Further properties of the notebook's functions *)

(** ** The statistic does not depend on the order of the rows *)

Lemma bta_results_binary (x : Q) : In x bta_results -> x = 0%Q \/ x = 1%Q.
Proof.
  intro Hx. simpl in Hx.
  repeat (destruct Hx as [Hx|Hx]; [subst x; auto|]). contradiction.
Qed.

Lemma sorted_unique (l1 : list string) :
  forall l2 : list string,
    StronglySorted slt l1 -> StronglySorted slt l2 ->
    (forall x, In x l1 <-> In x l2) -> l1 = l2.
Proof.
  induction l1 as [|x l1 IH]; intros [|y l2] H1 H2 Hin.
  - reflexivity.
  - exfalso. apply (proj2 (Hin y)). now left.
  - exfalso. apply (proj1 (Hin x)). now left.
  - inversion H1 as [|? ? H1' A1]; subst.
    inversion H2 as [|? ? H2' A2]; subst.
    rewrite Forall_forall in A1, A2.
    assert (Hxy : x = y).
    { destruct (proj1 (Hin x) (or_introl eq_refl)) as [E|Hx]; [now symmetry|].
      destruct (proj2 (Hin y) (or_introl eq_refl)) as [E|Hy]; [exact E|].
      exfalso. exact (slt_asym _ _ (A1 _ Hy) (A2 _ Hx)). }
    subst y. f_equal. apply IH; try assumption.
    intro z. split; intro Hz.
    + destruct (proj1 (Hin z) (or_intror Hz)) as [E|Hz']; [|exact Hz'].
      subst z. exfalso. exact (slt_irrefl _ (A1 _ Hz)).
    + destruct (proj2 (Hin z) (or_intror Hz)) as [E|Hz']; [|exact Hz'].
      subst z. exfalso. exact (slt_irrefl _ (A2 _ Hz)).
Qed.

Lemma group_keys_Permutation (l l' : list string) :
  Permutation l l' ->
  group_keys String.compare l = group_keys String.compare l'.
Proof.
  intro Hp. apply sorted_unique; try apply group_keys_sorted.
  intro x. rewrite !group_keys_In. split; apply Permutation_in.
  - exact Hp.
  - now symmetry.
Qed.

Lemma filter_Permutation {A : Type} (f : A -> bool) (l l' : list A) :
  Permutation l l' -> Permutation (filter f l) (filter f l').
Proof.
  induction 1 as [|x l l' _ IH|x y l|l l' l'' _ IH1 _ IH2]; simpl.
  - constructor.
  - destruct (f x); [now constructor | exact IH].
  - destruct (f x), (f y); try reflexivity. constructor.
  - now transitivity (filter f l').
Qed.

Lemma Qsum_binary_eq (l : list Q) :
  (forall x, In x l -> x = 0%Q \/ x = 1%Q) ->
  Qsum l = inject_Z (Z.of_nat (successes l)).
Proof.
  unfold successes.
  induction l as [|x l IH]; intro Hbin; [reflexivity|].
  simpl Qsum. rewrite IH by (intros y Hy; apply Hbin; now right).
  destruct (Hbin x (or_introl eq_refl)) as [-> | ->]; simpl filter;
    unfold Qplus, inject_Z; simpl Qnum; simpl Qden; simpl length;
    f_equal; lia.
Qed.

(** On 0/1 outcomes the mean is the same number in whatever order the
    outcomes are added: the sum is the count of the ones. *)
Lemma mean_binary_Permutation (l l' : list Q) :
  (forall x, In x l -> x = 0%Q \/ x = 1%Q) ->
  Permutation l l' -> mean l = mean l'.
Proof.
  intros Hbin Hp. unfold mean.
  assert (Hbin' : forall x, In x l' -> x = 0%Q \/ x = 1%Q).
  { intros x Hx. apply Hbin. apply Permutation_in with (l := l');
      [now symmetry | exact Hx]. }
  rewrite (Qsum_binary_eq l Hbin), (Qsum_binary_eq l' Hbin').
  unfold successes.
  rewrite (Permutation_length (filter_Permutation _ l l' Hp)).
  now rewrite (Permutation_length Hp).
Qed.

Lemma nth_error_combine {A B : Type} (l : list A) (l' : list B) (i : nat) :
  nth_error (combine l l') i =
  match nth_error l i, nth_error l' i with
  | Some a, Some b => Some (a, b)
  | _, _ => None
  end.
Proof.
  revert l' i. induction l as [|a l IH]; intros [|b l'] [|i]; simpl;
    try reflexivity.
  - now destruct (nth_error l i).
  - apply IH.
Qed.

Lemma combine_take {A B : Type} (perm : list nat) (l : list A) (l' : list B) :
  length l = length l' ->
  combine (take perm l) (take perm l') = take perm (combine l l').
Proof.
  intro Hlen. induction perm as [|i perm IH]; [reflexivity|].
  unfold take in *. simpl. rewrite nth_error_combine.
  destruct (nth_error l i) as [a|] eqn:Ea;
    destruct (nth_error l' i) as [b|] eqn:Eb; simpl.
  - now rewrite IH.
  - exfalso. apply nth_error_None in Eb.
    assert (i < length l) by (apply nth_error_Some; congruence). lia.
  - exfalso. apply nth_error_None in Ea.
    assert (i < length l') by (apply nth_error_Some; congruence). lia.
  - exact IH.
Qed.

Lemma outcomes_take (g : string) (perm : list nat) (labels : list string)
    (results : list Q) :
  length labels = length results ->
  Permutation perm (seq 0 (length labels)) ->
  Permutation (outcomes g (take perm labels) (take perm results))
              (outcomes g labels results).
Proof.
  intros Hlen Hp. unfold outcomes.
  rewrite (combine_take perm labels results Hlen).
  apply Permutation_map, filter_Permutation, take_Permutation.
  rewrite length_combine, <- Hlen, Nat.min_id. exact Hp.
Qed.

(** X1. Reordering the rows of a table of 0/1 outcomes (labels and
    outcomes together) does not change the statistic: it fails on both
    tables, or it returns the same value on both.  The sums of 0/1
    outcomes are counts, so the order in which a group is added plays no
    part. *)
Theorem difference_of_means_abs_row_order (h h' : heap) (r r' : ref)
    (d d' : DataFrame) (labels : list string) (results : list Q)
    (perm : list nat) :
  nth_error h r = Some d ->
  nth_error h' r' = Some d' ->
  holds_dataset d labels results ->
  holds_dataset d' (take perm labels) (take perm results) ->
  length labels = length results ->
  (forall x, In x results -> x = 0%Q \/ x = 1%Q) ->
  Permutation perm (seq 0 (length labels)) ->
  (difference_of_means_abs r "Group" h = (Raise IndexError, h) /\
   difference_of_means_abs r' "Group" h' = (Raise IndexError, h')) \/
  exists v : Q,
    difference_of_means_abs r "Group" h = (Ok v, h) /\
    difference_of_means_abs r' "Group" h' = (Ok v, h').
Proof.
  intros Hh Hh' Hd Hd' Hlen Hbin Hp.
  rewrite (dataset_eval h r d labels results Hh Hd).
  rewrite (dataset_eval h' r' d' _ _ Hh' Hd').
  rewrite (group_keys_Permutation _ _ (take_Permutation perm labels Hp)).
  assert (Hmean : forall k,
            mean (outcomes k (take perm labels) (take perm results))
            = mean (outcomes k labels results)).
  { intro k. symmetry. apply mean_binary_Permutation.
    - intros x Hx. apply Hbin.
      exact (proj1 (outcomes_In k labels results x Hx)).
    - symmetry. now apply outcomes_take. }
  destruct (group_keys String.compare labels) as [|k0 [|k1 rest]].
  - now left.
  - now left.
  - right. eexists. split; [reflexivity|]. now rewrite !Hmean.
Qed.

Lemma difference_of_means_abs_row_order_witness :
  let d' := dataset (take (rev (seq 0 31)) bta_labels)
                    (take (rev (seq 0 31)) bta_results) in
  (difference_of_means_abs 0 "Group" [bta_df] = (Raise IndexError, [bta_df]) /\
   difference_of_means_abs 0 "Group" [d'] = (Raise IndexError, [d'])) \/
  exists v : Q,
    difference_of_means_abs 0 "Group" [bta_df] = (Ok v, [bta_df]) /\
    difference_of_means_abs 0 "Group" [d'] = (Ok v, [d']).
Proof.
  apply (difference_of_means_abs_row_order [bta_df] _ 0 0 bta_df
           (dataset (take (rev (seq 0 31)) bta_labels)
                    (take (rev (seq 0 31)) bta_results))
           bta_labels bta_results (rev (seq 0 31))).
  - reflexivity.
  - reflexivity.
  - left. reflexivity.
  - left. reflexivity.
  - reflexivity.
  - exact bta_results_binary.
  - symmetry. apply Permutation_rev.
Defined.

(** ** Closed forms of a call and of an iteration *)

Lemma difference_of_means_abs_closed (h : heap) (r : ref) (d : DataFrame)
    (labels : list string) (results : list Q) :
  nth_error h r = Some d ->
  holds_dataset d labels results ->
  difference_of_means_abs r "Group" h = (statistic_of labels results, h).
Proof. exact (dataset_eval h r d labels results). Qed.

Lemma one_simulated_difference_step (h : heap) (r : ref) (d : DataFrame)
    (labels : list string) (results : list Q) (perm : list nat) :
  nth_error h r = Some d ->
  holds_dataset d labels results ->
  exists (h1 : heap) (d1 : DataFrame),
    one_simulated_difference perm r "Group" h
    = (statistic_of (take perm labels) results, h1) /\
    nth_error h1 r = Some d1 /\
    holds_dataset d1 labels results.
Proof.
  intros Hh Hd.
  rewrite (one_simulated_difference_eval h r d labels results perm Hh Hd).
  do 2 eexists. split; [reflexivity|]. split.
  - assert (Hr : r < length h) by (apply nth_error_Some; congruence).
    rewrite nth_error_app1 by now rewrite length_update.
    now apply (nth_error_update_same h r d).
  - right. now exists (take perm labels).
Qed.

(** ** The statistic of binary outcomes lies between 0 and 1 *)

Lemma successes_le (l : list Q) : successes l <= length l.
Proof. unfold successes. apply filter_length_le. Qed.

Lemma mean_unit (l : list Q) :
  (forall x, In x l -> x = 0%Q \/ x = 1%Q) -> in_unit_interval (mean l).
Proof.
  intro Hbin. unfold in_unit_interval.
  rewrite (mean_binary l (length l) (successes l) Hbin eq_refl eq_refl).
  pose proof (successes_le l) as Hle.
  destruct (length l) as [|n] eqn:En.
  - assert (E0 : successes l = 0) by lia. rewrite E0.
    split; discriminate.
  - assert (HR : (0 < inject_Z (Z.of_nat (S n)))%Q).
    { change 0%Q with (inject_Z 0). rewrite <- Zlt_Qlt. lia. }
    split.
    + apply Qle_shift_div_l; [exact HR|]. rewrite Qmult_0_l.
      change 0%Q with (inject_Z 0). rewrite <- Zle_Qle. lia.
    + apply Qle_shift_div_r; [exact HR|]. rewrite Qmult_1_l.
      rewrite <- Zle_Qle. lia.
Qed.

Lemma Qabs_diff_unit (x y : Q) :
  in_unit_interval x -> in_unit_interval y ->
  in_unit_interval (Qabs (x - y)).
Proof.
  intros [Hx0 Hx1] [Hy0 Hy1]. split; [apply Qabs_nonneg|].
  apply Qabs_Qle_condition. split; lra.
Qed.

Lemma statistic_of_unit (labels : list string) (results : list Q) :
  (forall x, In x results -> x = 0%Q \/ x = 1%Q) ->
  statistic_of labels results = Raise IndexError \/
  exists v, statistic_of labels results = Ok v /\ in_unit_interval v.
Proof.
  intro Hbin. unfold statistic_of.
  destruct (group_keys String.compare labels) as [|k0 [|k1 rest]];
    [now left | now left |].
  right. eexists. split; [reflexivity|].
  apply Qabs_diff_unit; apply mean_unit; intros x Hx; apply Hbin;
    exact (proj1 (outcomes_In _ labels results x Hx)).
Qed.

(** X2. On a table whose outcomes are all 0 or 1 the statistic function either
    fails with an [IndexError] or returns a value between 0 and 1. *)
Theorem difference_of_means_abs_unit_interval (h : heap) (r : ref)
    (d : DataFrame) (labels : list string) (results : list Q) :
  nth_error h r = Some d ->
  holds_dataset d labels results ->
  (forall x, In x results -> x = 0%Q \/ x = 1%Q) ->
  difference_of_means_abs r "Group" h = (Raise IndexError, h) \/
  exists v : Q,
    difference_of_means_abs r "Group" h = (Ok v, h) /\ in_unit_interval v.
Proof.
  intros Hh Hd Hbin.
  rewrite (difference_of_means_abs_closed h r d labels results Hh Hd).
  destruct (statistic_of_unit labels results Hbin) as [-> | [v [-> Hv]]].
  - now left.
  - right. now exists v.
Qed.

Lemma difference_of_means_abs_unit_interval_witness :
  difference_of_means_abs 0 "Group" [bta_df] = (Raise IndexError, [bta_df]) \/
  exists v : Q,
    difference_of_means_abs 0 "Group" [bta_df] = (Ok v, [bta_df]) /\
    in_unit_interval v.
Proof.
  apply (difference_of_means_abs_unit_interval [bta_df] 0 bta_df bta_labels
           bta_results).
  - reflexivity.
  - left. reflexivity.
  - exact bta_results_binary.
Defined.

(** ** Relabelling and the observed statistic *)

(** X4. Drawing the identity permutation reproduces the observed statistic:
    the relabelled table then carries the original labels. *)
Theorem one_simulated_difference_identity_draw (h : heap) (r : ref)
    (d : DataFrame) (labels : list string) (results : list Q) :
  nth_error h r = Some d ->
  holds_dataset d labels results ->
  fst (one_simulated_difference (seq 0 (length labels)) r "Group" h)
  = fst (difference_of_means_abs r "Group" h).
Proof.
  intros Hh Hd.
  destruct (one_simulated_difference_step h r d labels results
              (seq 0 (length labels)) Hh Hd) as [h1 [d1 [E _]]].
  rewrite E, (difference_of_means_abs_closed h r d labels results Hh Hd).
  simpl. now rewrite take_seq.
Qed.

Lemma one_simulated_difference_identity_draw_witness :
  fst (one_simulated_difference (seq 0 (length bta_labels)) 0 "Group" [bta_df])
  = fst (difference_of_means_abs 0 "Group" [bta_df]).
Proof.
  apply (one_simulated_difference_identity_draw [bta_df] 0 bta_df bta_labels
           bta_results).
  - reflexivity.
  - left. reflexivity.
Defined.

Lemma repetitions_loop_keeps (draws : nat -> list nat) (r : ref)
    (labels : list string) (results : list Q) (n : nat) :
  forall (i : nat) (acc : list Q) (h : heap) (d : DataFrame),
    nth_error h r = Some d ->
    holds_dataset d labels results ->
    exists d' : DataFrame,
      nth_error (snd (repetitions_loop draws r n i acc h)) r = Some d' /\
      holds_dataset d' labels results.
Proof.
  induction n as [|n IH]; intros i acc h d Hh Hd; simpl.
  - now exists d.
  - destruct (one_simulated_difference_step h r d labels results (draws i)
                Hh Hd) as [h1 [d1 [E [Hh1 Hd1]]]].
    unfold bind at 1. rewrite E.
    destruct (statistic_of (take (draws i) labels) results) as [v|e].
    + apply (IH (S i) (acc ++ [v]) h1 d1 Hh1 Hd1).
    + now exists d1.
Qed.

(** X8. The simulation does not disturb the observed statistic: computed on
    the caller's table after the simulation cell has run (whether the cell
    finished or failed), the statistic is what it was before. *)
Theorem simulate_keeps_observed (draws : nat -> list nat) (h : heap)
    (r : ref) (d : DataFrame) (labels : list string) (results : list Q)
    (repetitions : nat) :
  nth_error h r = Some d ->
  holds_dataset d labels results ->
  fst (difference_of_means_abs r "Group"
         (snd (simulate draws r repetitions h)))
  = fst (difference_of_means_abs r "Group" h).
Proof.
  intros Hh Hd. unfold simulate.
  destruct (repetitions_loop_keeps draws r labels results repetitions 0 []
              h d Hh Hd) as [d' [Hh' Hd']].
  rewrite (difference_of_means_abs_closed _ r d' labels results Hh' Hd').
  now rewrite (difference_of_means_abs_closed h r d labels results Hh Hd).
Qed.

Lemma simulate_keeps_observed_witness :
  fst (difference_of_means_abs 0 "Group"
         (snd (simulate (fun _ => rev (seq 0 31)) 0 3 [bta_df])))
  = fst (difference_of_means_abs 0 "Group" [bta_df]).
Proof.
  apply (simulate_keeps_observed (fun _ => rev (seq 0 31)) [bta_df] 0 bta_df
           bta_labels bta_results 3).
  - reflexivity.
  - left. reflexivity.
Defined.

(** ** The values the simulation collects *)

Lemma repetitions_loop_values (draws : nat -> list nat) (r : ref)
    (labels : list string) (results : list Q) (n : nat) :
  forall (i : nat) (acc : list Q) (h h' : heap) (d : DataFrame)
         (ds : list Q),
    nth_error h r = Some d ->
    holds_dataset d labels results ->
    repetitions_loop draws r n i acc h = (Ok ds, h') ->
    exists vs : list Q,
      ds = acc ++ vs /\ length vs = n /\
      forall j, j < n ->
        statistic_of (take (draws (i + j)) labels) results
        = Ok (nth j vs 0%Q).
Proof.
  induction n as [|n IH]; intros i acc h h' d ds Hh Hd; simpl.
  - unfold ret. intros [= <- _]. exists []. rewrite app_nil_r.
    split; [reflexivity|]. split; [reflexivity|]. intros j Hj. lia.
  - destruct (one_simulated_difference_step h r d labels results (draws i)
                Hh Hd) as [h1 [d1 [E [Hh1 Hd1]]]].
    unfold bind at 1. rewrite E.
    destruct (statistic_of (take (draws i) labels) results) as [v|e] eqn:Ev;
      [|discriminate].
    intro Hloop.
    destruct (IH (S i) (acc ++ [v]) h1 h' d1 ds Hh1 Hd1 Hloop)
      as [vs [Hds [Hlen Hvs]]].
    exists (v :: vs). split; [now rewrite Hds, <- app_assoc|].
    split; [simpl; now rewrite Hlen|].
    intros [|j] Hj; simpl.
    + now rewrite Nat.add_0_r.
    + rewrite Nat.add_succ_r. apply Hvs. lia.
Qed.

(** X9. The iterations do not influence each other: although every iteration
    writes into the caller's table, the value collected in iteration [j] is
    the value one relabelling of the freshly loaded table returns for the
    permutation drawn in iteration [j]. *)
Theorem simulate_iterations_independent (draws : nat -> list nat)
    (h h' : heap) (r : ref) (d : DataFrame) (labels : list string)
    (results : list Q) (repetitions : nat) (differences : list Q) :
  nth_error h r = Some d ->
  holds_dataset d labels results ->
  simulate draws r repetitions h = (Ok differences, h') ->
  forall j, j < repetitions ->
    fst (one_simulated_difference (draws j) 0 "Group"
           [dataset labels results])
    = Ok (nth j differences 0%Q).
Proof.
  intros Hh Hd Hsim j Hj.
  destruct (repetitions_loop_values draws r labels results repetitions 0 []
              h h' d differences Hh Hd Hsim) as [vs [Hds [_ Hvs]]].
  simpl in Hds. subst vs.
  destruct (one_simulated_difference_step [dataset labels results] 0
              (dataset labels results) labels results (draws j) eq_refl
              (or_introl eq_refl)) as [h1 [d1 [E _]]].
  rewrite E. simpl. exact (Hvs j Hj).
Qed.

Lemma simulate_iterations_independent_witness :
  fst (one_simulated_difference (rev (seq 0 31)) 0 "Group"
         [dataset bta_labels bta_results])
  = Ok (nth 1 [(103 # 240)%Q; (103 # 240)%Q; (103 # 240)%Q] 0%Q).
Proof.
  apply (simulate_iterations_independent (fun _ => rev (seq 0 31)) [bta_df]
           (snd (simulate (fun _ => rev (seq 0 31)) 0 3 [bta_df])) 0 bta_df
           bta_labels bta_results 3 _ eq_refl (or_introl eq_refl) eq_refl 1).
  lia.
Defined.

(** X10. On a table of binary outcomes every value the simulation collects lies
    between 0 and 1. *)
Theorem simulate_values_unit_interval (draws : nat -> list nat)
    (h h' : heap) (r : ref) (d : DataFrame) (labels : list string)
    (results : list Q) (repetitions : nat) (differences : list Q) :
  nth_error h r = Some d ->
  holds_dataset d labels results ->
  (forall x, In x results -> x = 0%Q \/ x = 1%Q) ->
  simulate draws r repetitions h = (Ok differences, h') ->
  Forall in_unit_interval differences.
Proof.
  intros Hh Hd Hbin Hsim.
  destruct (repetitions_loop_values draws r labels results repetitions 0 []
              h h' d differences Hh Hd Hsim) as [vs [Hds [Hlen Hvs]]].
  simpl in Hds. subst vs.
  apply Forall_forall. intros v Hv.
  destruct (In_nth differences v 0%Q Hv) as [j [Hj <-]].
  rewrite Hlen in Hj. specialize (Hvs j Hj). simpl in Hvs.
  destruct (statistic_of_unit (take (draws j) labels) results Hbin)
    as [E | [w [E Hw]]]; rewrite E in Hvs.
  - discriminate.
  - now injection Hvs as <-.
Qed.

Lemma simulate_values_unit_interval_witness :
  Forall in_unit_interval [(103 # 240)%Q; (103 # 240)%Q; (103 # 240)%Q].
Proof.
  apply (simulate_values_unit_interval (fun _ => rev (seq 0 31)) [bta_df]
           (snd (simulate (fun _ => rev (seq 0 31)) 0 3 [bta_df])) 0 bta_df
           bta_labels bta_results 3).
  - reflexivity.
  - left. reflexivity.
  - exact bta_results_binary.
  - reflexivity.
Defined.

(** ** A table with a single group *)

Lemma take_In {A : Type} (perm : list nat) (l : list A) (x : A) :
  In x (take perm l) -> In x l.
Proof.
  unfold take. intro H. apply in_flat_map in H. destruct H as [i [_ Hx]].
  destruct (nth_error l i) as [y|] eqn:E; [|contradiction].
  destruct Hx as [<- | []]. now apply nth_error_In with (n := i).
Qed.

Lemma statistic_of_single (c : string) (labels : list string)
    (results : list Q) :
  (forall l, In l labels -> l = c) ->
  statistic_of labels results = Raise IndexError.
Proof.
  intro Hall. unfold statistic_of.
  now destruct (group_keys_single c labels Hall) as [-> | ->].
Qed.

(** X11. When all the rows carry the same label, the simulation cell fails in
    its first iteration with an [IndexError], whatever permutations are
    drawn; with zero repetitions it returns the empty list. *)
Theorem simulate_single_group (draws : nat -> list nat) (h : heap) (r : ref)
    (d : DataFrame) (labels : list string) (results : list Q) (c : string)
    (n : nat) :
  nth_error h r = Some d ->
  holds_dataset d labels results ->
  (forall l, In l labels -> l = c) ->
  fst (simulate draws r (S n) h) = Raise IndexError /\
  simulate draws r 0 h = (Ok [], h).
Proof.
  intros Hh Hd Hall. split; [|reflexivity].
  unfold simulate. simpl.
  destruct (one_simulated_difference_step h r d labels results (draws 0)
              Hh Hd) as [h1 [d1 [E _]]].
  unfold bind at 1. rewrite E.
  rewrite (statistic_of_single c (take (draws 0) labels) results);
    [reflexivity|].
  intros l Hl. apply Hall. now apply (take_In (draws 0)).
Qed.

Lemma simulate_single_group_witness :
  let h := [dataset ["Control"; "Control"] [1%Q; 0%Q]] in
  fst (simulate (fun _ => [1; 0]) 0 2 h) = Raise IndexError /\
  simulate (fun _ => [1; 0]) 0 0 h = (Ok [], h).
Proof.
  apply (simulate_single_group (fun _ => [1; 0]) _ 0
           (dataset ["Control"; "Control"] [1%Q; 0%Q])
           ["Control"; "Control"] [1%Q; 0%Q] "Control" 1).
  - reflexivity.
  - left. reflexivity.
  - intros l Hl. simpl in Hl.
    repeat (destruct Hl as [Hl|Hl]; [subst l; auto|]). contradiction.
Defined.

(** ** Missing and clashing columns *)




(** X5. Called with a label column the table does not have, a relabelling
    raises before it writes anything: [KeyError] for the label, or
    [ValueError] from [reset_index] when the table already has both an
    [index] and a [level_0] column.  No data frame is modified. *)
Theorem one_simulated_difference_missing_label (h : heap) (r : ref)
    (d : DataFrame) (group_label : string) (perm : list nat) :
  nth_error h r = Some d ->
  has_column d group_label = false ->
  group_label <> "index" -> group_label <> "level_0" ->
  one_simulated_difference perm r group_label h =
  (if has_column d "index" && has_column d "level_0"
   then Raise ValueError else Raise (KeyError group_label), h).
Proof.
  intros Hh Hc Hi Hl.
  assert (Hs : getitem (snd (sample perm d)) group_label
               = Raise (KeyError group_label)).
  { now rewrite getitem_sample, (getitem_missing d group_label Hc). }
  unfold one_simulated_difference, bind, load, lift. rewrite Hh.
  rewrite reset_index_cases. cbv zeta.
  destruct (has_column d "index"); [destruct (has_column d "level_0")|];
    simpl andb; cbv beta iota.
  - reflexivity.
  - rewrite getitem_cons_other by congruence. now rewrite Hs.
  - rewrite getitem_cons_other by congruence. now rewrite Hs.
Qed.

Lemma one_simulated_difference_missing_label_witness :
  one_simulated_difference (rev (seq 0 31)) 0 "Arm" [bta_df] =
  (if has_column bta_df "index" && has_column bta_df "level_0"
   then Raise ValueError else Raise (KeyError "Arm"), [bta_df]).
Proof.
  apply (one_simulated_difference_missing_label [bta_df] 0 bta_df "Arm"
           (rev (seq 0 31))).
  - reflexivity.
  - reflexivity.
  - discriminate.
  - discriminate.
Defined.

(** X6. [Shuffled Label] cannot serve as the label column: the relabelling
    overwrites that column in the caller's table, drops it from its own
    copy and then groups by it, so the call always raises. *)
Theorem one_simulated_difference_Shuffled_Label (h : heap) (r : ref)
    (d : DataFrame) (perm : list nat) :
  nth_error h r = Some d ->
  fst (one_simulated_difference perm r "Shuffled Label" h) = Raise ValueError
  \/
  fst (one_simulated_difference perm r "Shuffled Label" h)
  = Raise (KeyError "Shuffled Label").
Proof.
  intro Hh.
  unfold one_simulated_difference, bind, load, lift, store, alloc.
  rewrite Hh.
  destruct (reset_index (sample perm d)) as [temp_df|e] eqn:Er.
  2:{ left. simpl. rewrite reset_index_cases in Er. cbv zeta in Er.
      destruct (has_column d "index"); [|discriminate].
      destruct (has_column d "level_0"); [|discriminate].
      now injection Er as <-. }
  destruct (getitem temp_df "Shuffled Label") as [shuffled|e] eqn:Eg.
  2:{ right. simpl. now rewrite (getitem_Raise _ _ _ Eg). }
  right. rewrite Hh. cbv beta iota.
  rewrite (nth_error_update_same h r d _ Hh). cbv beta iota.
  unfold drop. rewrite has_column_setitem_same.
  set (d1 := setitem d "Shuffled Label" shuffled).
  rewrite (difference_of_means_abs_reads _ _
             (remove_column d1 "Shuffled Label") "Shuffled Label").
  - unfold group_mean_at, groupby_mean.
    now rewrite getitem_remove_column.
  - apply nth_error_alloc.
Qed.

Lemma one_simulated_difference_Shuffled_Label_witness :
  fst (one_simulated_difference (rev (seq 0 31)) 0 "Shuffled Label"
         [bta_df_shuffled]) = Raise ValueError
  \/
  fst (one_simulated_difference (rev (seq 0 31)) 0 "Shuffled Label"
         [bta_df_shuffled]) = Raise (KeyError "Shuffled Label").
Proof.
  apply (one_simulated_difference_Shuffled_Label [bta_df_shuffled] 0
           bta_df_shuffled (rev (seq 0 31))).
  reflexivity.
Defined.

(** X7. A failure can come after the write.  Called with [index] as the label
    column on a table without such a column, the relabelling takes the old
    row index that [reset_index] has put under that name, writes it into
    the caller's table as [Shuffled Label], and only then raises
    [KeyError] when it drops the label column. *)
Theorem one_simulated_difference_index_label (h : heap) (r : ref)
    (d : DataFrame) (perm : list nat) :
  nth_error h r = Some d ->
  has_column d "index" = false ->
  one_simulated_difference perm r "index" h =
  (Raise (KeyError "index"),
   update h r
     (setitem d "Shuffled Label"
        (Numeric (map (fun i => inject_Z (Z.of_nat i)) perm)))).
Proof.
  intros Hh Hc.
  unfold one_simulated_difference, bind, load, lift, store, alloc.
  rewrite Hh, reset_index_cases, Hc. cbv zeta beta iota.
  change (getitem (("index", ?c) :: ?x) "index") with (@Ok column c).
  cbv beta iota. rewrite Hh. cbv beta iota.
  rewrite (nth_error_update_same h r d _ Hh). cbv beta iota.
  unfold drop. rewrite has_column_setitem_other by discriminate.
  now rewrite Hc.
Qed.

Lemma one_simulated_difference_index_label_witness :
  one_simulated_difference [1; 0] 0 "index"
    [dataset ["Control"; "Treatment"] [1%Q; 0%Q]] =
  (Raise (KeyError "index"),
   update [dataset ["Control"; "Treatment"] [1%Q; 0%Q]] 0
     (setitem (dataset ["Control"; "Treatment"] [1%Q; 0%Q]) "Shuffled Label"
        (Numeric (map (fun i => inject_Z (Z.of_nat i)) [1; 0])))).
Proof.
  apply (one_simulated_difference_index_label
           [dataset ["Control"; "Treatment"] [1%Q; 0%Q]] 0
           (dataset ["Control"; "Treatment"] [1%Q; 0%Q]) [1; 0]).
  - reflexivity.
  - reflexivity.
Defined.

(** ** More on the empirical p-value *)

Lemma filter_length_mono {A : Type} (f g : A -> bool) (l : list A) :
  (forall x, f x = true -> g x = true) ->
  length (filter f l) <= length (filter g l).
Proof.
  intro Hfg. induction l as [|x l IH]; simpl; [lia|].
  destruct (f x) eqn:Ef.
  - rewrite (Hfg x Ef). simpl. lia.
  - destruct (g x); simpl; lia.
Qed.

Lemma filter_length_split {A : Type} (f : A -> bool) (l : list A) :
  length (filter f l) + length (filter (fun x => negb (f x)) l) = length l.
Proof.
  induction l as [|x l IH]; simpl; [reflexivity|].
  destruct (f x); simpl; lia.
Qed.

(** X12. The value [empirical_P] returns grows with the observed statistic: a
    larger observed value never gives a smaller result. *)
Theorem empirical_P_monotone (differences : list Q) (o1 o2 : Q)
    (repetitions : nat) :
  0 < repetitions -> (o1 <= o2)%Q ->
  exists p1 p2 : Q,
    empirical_P differences o1 repetitions = Ok p1 /\
    empirical_P differences o2 repetitions = Ok p2 /\
    (p1 <= p2)%Q.
Proof.
  intros Hpos Hle. destruct repetitions as [|n]; [lia|].
  rewrite !empirical_P_counts_at_most.
  do 2 eexists. split; [reflexivity|]. split; [reflexivity|].
  unfold Qdiv. apply Qmult_le_compat_r.
  - rewrite <- Zle_Qle. apply Nat2Z.inj_le. apply filter_length_mono.
    intros d Hd. apply Qle_bool_iff. apply Qle_bool_iff in Hd.
    now apply Qle_trans with o1.
  - apply Qinv_le_0_compat. change 0%Q with (inject_Z 0).
    rewrite <- Zle_Qle. lia.
Qed.

Lemma empirical_P_monotone_witness :
  exists p1 p2 : Q,
    empirical_P [0%Q; (1 # 4)%Q; (1 # 2)%Q] (1 # 4)%Q 3 = Ok p1 /\
    empirical_P [0%Q; (1 # 4)%Q; (1 # 2)%Q] (1 # 2)%Q 3 = Ok p2 /\
    (p1 <= p2)%Q.
Proof.
  apply (empirical_P_monotone [0%Q; (1 # 4)%Q; (1 # 2)%Q] (1 # 4)%Q
           (1 # 2)%Q 3).
  - lia.
  - discriminate.
Defined.

(** X13. What [empirical_P] returns is the complement of the upper tail: with
    as many simulated values as repetitions, it is one minus the
    proportion of the simulated values that are strictly greater than the
    observed one. *)
Theorem empirical_P_complement (differences : list Q) (observed : Q)
    (repetitions : nat) :
  0 < repetitions ->
  length differences = repetitions ->
  exists p : Q,
    empirical_P differences observed repetitions = Ok p /\
    (p == 1 - inject_Z (Z.of_nat
                          (length (filter
                                     (fun d => negb (Qle_bool d observed))
                                     differences)))
             / inject_Z (Z.of_nat repetitions))%Q.
Proof.
  intros Hpos Hlen. destruct repetitions as [|n]; [lia|].
  rewrite empirical_P_counts_at_most.
  eexists. split; [reflexivity|].
  pose proof (filter_length_split (fun d => Qle_bool d observed) differences)
    as Hsplit.
  rewrite Hlen in Hsplit.
  set (a := length (filter (fun d => Qle_bool d observed) differences)) in *.
  set (b := length (filter (fun d => negb (Qle_bool d observed))
                           differences)) in *.
  rewrite <- Hsplit, Nat2Z.inj_add, inject_Z_plus.
  assert (Hnz : ~ (inject_Z (Z.of_nat a) + inject_Z (Z.of_nat b) == 0)%Q).
  { rewrite <- inject_Z_plus, <- Nat2Z.inj_add, Hsplit.
    change 0%Q with (inject_Z 0). rewrite inject_Z_injective. lia. }
  field. exact Hnz.
Qed.

Lemma empirical_P_complement_witness :
  exists p : Q,
    empirical_P [0%Q; (1 # 4)%Q; (1 # 2)%Q] (1 # 4)%Q 3 = Ok p /\
    (p == 1 - inject_Z (Z.of_nat
                          (length (filter
                                     (fun d => negb (Qle_bool d (1 # 4)))
                                     [0%Q; (1 # 4)%Q; (1 # 2)%Q])))
             / inject_Z (Z.of_nat 3))%Q.
Proof.
  apply (empirical_P_complement [0%Q; (1 # 4)%Q; (1 # 2)%Q] (1 # 4)%Q 3).
  - lia.
  - reflexivity.
Defined.

(** ** The groups of a group-by *)

Lemma sorted_NoDup (ks : list string) : StronglySorted slt ks -> NoDup ks.
Proof.
  induction 1 as [|k ks _ IH Hall]; constructor; [|exact IH].
  intro Hin. rewrite Forall_forall in Hall.
  exact (slt_irrefl k (Hall k Hin)).
Qed.

Lemma list_sum_map_add {A : Type} (f g : A -> nat) (l : list A) :
  list_sum (map (fun x => f x + g x) l)
  = list_sum (map f l) + list_sum (map g l).
Proof. induction l as [|x l IH]; simpl; [reflexivity|]. rewrite IH. lia. Qed.

Lemma list_sum_indicator (y : string) (ks : list string) :
  NoDup ks -> In y ks ->
  list_sum (map (fun k => match String.compare y k with
                          | Eq => 1
                          | _ => 0
                          end) ks) = 1.
Proof.
  induction 1 as [|k ks Hnin _ IH]; intro Hin; [contradiction|]. simpl.
  assert (Hzero : forall l, ~ In y l ->
            list_sum (map (fun k => match String.compare y k with
                                    | Eq => 1
                                    | _ => 0
                                    end) l) = 0).
  { induction l as [|z l IHl]; intro Hn; simpl; [reflexivity|].
    rewrite IHl by (intro; apply Hn; now right).
    destruct (String.compare y z) eqn:E; try reflexivity.
    apply compare_Eq in E. subst z. exfalso. apply Hn. now left. }
  destruct Hin as [-> | Hin].
  - rewrite (proj2 (compare_Eq y y) eq_refl).
    rewrite Hzero by exact Hnin. reflexivity.
  - rewrite (IH Hin).
    destruct (String.compare y k) eqn:E; try reflexivity.
    apply compare_Eq in E. subst k. contradiction.
Qed.

Lemma group_sizes_sum_over (ks labels : list string) :
  NoDup ks -> (forall y, In y labels -> In y ks) ->
  list_sum
    (map (fun k =>
            length (filter (fun k' => match String.compare k' k with
                                      | Eq => true
                                      | _ => false
                                      end) labels)) ks)
  = length labels.
Proof.
  intros Hnd. induction labels as [|y labels IH]; intro Hsub; simpl.
  - clear. induction ks as [|k ks IHk]; simpl; [reflexivity | exact IHk].
  - rewrite <- Nat.add_1_r.
    rewrite <- (IH (fun z Hz => Hsub z (or_intror Hz))).
    rewrite <- (list_sum_indicator y ks Hnd (Hsub y (or_introl eq_refl))).
    rewrite <- list_sum_map_add. f_equal. apply map_ext. intro k.
    destruct (String.compare y k); simpl; lia.
Qed.

(** X14. The groups that [groupby] forms partition the rows: for a label column
    of strings, the counts of every column add up to the number of rows,
    and no group is empty, which is why a group mean never divides by
    zero. *)
Theorem groupby_count_partition (d : DataFrame) (by_ : string)
    (ks : list string) :
  getitem d by_ = Ok (Object ks) ->
  exists cols : list (string * list nat),
    groupby_count d by_ = Ok cols /\
    map fst cols = map fst (remove_column d by_) /\
    forall name sizes, In (name, sizes) cols ->
      list_sum sizes = length ks /\
      length sizes = length (group_keys String.compare ks) /\
      Forall (fun s => 0 < s) sizes.
Proof.
  intro Hk. unfold groupby_count. rewrite Hk. eexists.
  split; [reflexivity|]. split.
  - rewrite map_map. reflexivity.
  - intros name sizes Hin. apply in_map_iff in Hin.
    destruct Hin as [[n c] [[= _ <-] _]]. unfold group_sizes.
    split; [|split].
    + apply group_sizes_sum_over.
      * apply sorted_NoDup, group_keys_sorted.
      * intros y Hy. now apply group_keys_In.
    + apply length_map.
    + apply Forall_forall. intros s Hs. apply in_map_iff in Hs.
      destruct Hs as [k [<- Hkin]].
      apply (proj1 (group_keys_In k ks)) in Hkin.
      assert (Hf : In k (filter (fun k' => match String.compare k' k with
                                           | Eq => true
                                           | _ => false
                                           end) ks)).
      { apply filter_In. split; [exact Hkin|].
        now rewrite (proj2 (compare_Eq k k) eq_refl). }
      destruct (filter _ ks); [contradiction | simpl; lia].
Qed.

Lemma groupby_count_partition_witness :
  exists cols : list (string * list nat),
    groupby_count bta_df "Group" = Ok cols /\
    map fst cols = map fst (remove_column bta_df "Group") /\
    forall name sizes, In (name, sizes) cols ->
      list_sum sizes = length bta_labels /\
      length sizes = length (group_keys String.compare bta_labels) /\
      Forall (fun s => 0 < s) sizes.
Proof.
  apply (groupby_count_partition bta_df "Group" bta_labels).
  reflexivity.
Defined.

Lemma outcomes_nonempty (k : string) (labels : list string) :
  forall results : list Q,
    length labels = length results -> In k labels ->
    0 < length (outcomes k labels results).
Proof.
  unfold outcomes.
  induction labels as [|l labels IH]; intros [|x results] Hlen Hin;
    try discriminate; [contradiction|].
  simpl. destruct (String.eqb l k) eqn:E; simpl; [lia|].
  apply IH; [now injection Hlen|].
  destruct Hin as [-> | Hin]; [|exact Hin].
  now rewrite String.eqb_refl in E.
Qed.

(** X15. The cell [bta_df.groupby('Group').mean()] on a table of binary
    outcomes: the only column of the result is [Result] (a
    [Shuffled Label] column is left out), it has one entry per distinct
    label in increasing order, and the entry of a group is the proportion
    of its rows with outcome 1, the group being non-empty. *)
Theorem groupby_mean_proportions (d : DataFrame) (labels : list string)
    (results : list Q) :
  holds_dataset d labels results ->
  length labels = length results ->
  (forall x, In x results -> x = 0%Q \/ x = 1%Q) ->
  let keys := group_keys String.compare labels in
  groupby_mean d "Group"
  = Ok (mkGrouped (length keys)
          [("Result", map (fun k => mean (outcomes k labels results)) keys)])
  /\
  forall k, In k keys ->
    0 < length (outcomes k labels results) /\
    (mean (outcomes k labels results)
     == inject_Z (Z.of_nat (successes (outcomes k labels results)))
        / inject_Z (Z.of_nat (length (outcomes k labels results))))%Q.
Proof.
  intros Hd Hlen Hbin keys. split.
  - assert (E : group_means String.compare labels results
                = map (fun k => mean (outcomes k labels results)) keys).
    { unfold group_means. apply map_ext. intro k.
      now rewrite group_values_outcomes. }
    rewrite <- E. destruct Hd as [-> | [old ->]]; reflexivity.
  - intros k Hk. apply (proj1 (group_keys_In k labels)) in Hk. split.
    + now apply outcomes_nonempty.
    + apply mean_binary; try reflexivity.
      intros x Hx. apply Hbin.
      exact (proj1 (outcomes_In k labels results x Hx)).
Qed.

Lemma groupby_mean_proportions_witness :
  let keys := group_keys String.compare bta_labels in
  groupby_mean bta_df_shuffled "Group"
  = Ok (mkGrouped (length keys)
          [("Result",
            map (fun k => mean (outcomes k bta_labels bta_results)) keys)])
  /\
  forall k, In k keys ->
    0 < length (outcomes k bta_labels bta_results) /\
    (mean (outcomes k bta_labels bta_results)
     == inject_Z (Z.of_nat (successes (outcomes k bta_labels bta_results)))
        / inject_Z (Z.of_nat (length (outcomes k bta_labels bta_results))))%Q.
Proof.
  apply (groupby_mean_proportions bta_df_shuffled bta_labels bta_results).
  - right. eexists. reflexivity.
  - reflexivity.
  - exact bta_results_binary.
Defined.
